(** * advance_etl.py: the transform-and-model stage of the sales pipeline

    A shallow embedding of [src/advance_etl.py].  A pandas DataFrame is an
    ordered list of rows; a column is the list of one field of every row.
    The vectorised column operations of the script ([isnull], [<= 0], [|],
    [~], boolean indexing, [drop_duplicates], [merge]) are embedded one by
    one, and the functions of the script are composed from them in the order
    of the source.  Files, the SQLite store, the log and I/O failures live in
    an explicit [World] that every effectful function threads through. *)

From stdpp Require Import base numbers list strings gmap.
From Stdlib Require Import ZArith.

Local Open Scope string_scope.
Local Open Scope list_scope.
Local Open Scope Z_scope.

(** ** Data model *)

(** One row of the raw file.  [customer_name] and [price] are the two cells
    the script tests for being missing; a missing cell is [None] (pandas
    [NaN]).  Numeric cells hold integers; the arithmetic of doubles with a
    fractional part is outside this embedding, and so are integer columns
    with a cell outside the signed 64-bit range (see [int64_frame]). *)
Record RawRow := mkRaw {
  order_id : Z;
  customer_name : option string;
  product : string;
  category : string;
  price : option Z;
  quantity : Z;
  transaction_date : string
}.

Abbreviation DataFrame := (list RawRow).

(** A row of [df_clean] once line 65 has added the [total_amount] column. *)
Record CleanRow := mkClean {
  row : RawRow;
  total_amount : option Z
}.

(** The natural key of a product: the three columns [product], [category],
    [price] that [drop_duplicates] and [merge] compare. *)
Abbreviation Key := (string * string * option Z)%type.

Record DimRow := mkDim {
  d_product : string;
  d_category : string;
  d_price : option Z;
  product_id : Z
}.

(** A row of [fact_sales].  [f_product_id] is [None] where the left join
    found no dimension row (pandas fills the cell with [NaN]). *)
Record FactRow := mkFact {
  f_order_id : Z;
  f_transaction_date : string;
  f_customer_name : option string;
  f_product_id : option Z;
  f_quantity : Z;
  f_total_amount : option Z
}.

Global Instance RawRow_eq_dec : EqDecision RawRow.
Proof. solve_decision. Defined.
Global Instance CleanRow_eq_dec : EqDecision CleanRow.
Proof. solve_decision. Defined.
Global Instance DimRow_eq_dec : EqDecision DimRow.
Proof. solve_decision. Defined.
Global Instance FactRow_eq_dec : EqDecision FactRow.
Proof. solve_decision. Defined.

(** ** Column operations *)

Definition is_none {A} (c : option A) : bool :=
  match c with None => true | Some _ => false end.

(** [Series.isnull()] *)
Definition isnull {A} (col : list (option A)) : list bool := map is_none col.

(** [Series <= 0]: a comparison with a missing cell is [False]. *)
Definition le_scalar (col : list (option Z)) (k : Z) : list bool :=
  map (fun c => match c with Some p => p <=? k | None => false end) col.

(** [mask1 | mask2] and [~mask] *)
Definition mask_or (a b : list bool) : list bool := zip_with orb a b.
Definition mask_not (a : list bool) : list bool := map negb a.

(** [df[mask]]: the rows whose mask cell is [True], in the order of [df].
    The masks of the script are computed from [df] itself, so they always
    have its length. *)
Fixpoint select {A} (df : list A) (mask : list bool) : list A :=
  match df, mask with
  | r :: df', b :: mask' =>
      if b then r :: select df' mask' else select df' mask'
  | _, _ => []
  end.

(** *** Column arithmetic *)

(** A cell that fits a signed 64-bit column. *)
Definition int64_cell (z : Z) : Prop := - 2 ^ 63 ≤ z < 2 ^ 63.

(** The frames the column arithmetic below is about: every quantity and
    every price that is present fits in 64 bits, so that the quantity
    column is [int64] and the price column is [int64] or, with a missing
    cell, [float64].  A column with a larger cell has another dtype
    (unsigned or object), whose arithmetic is not embedded. *)
Definition int64_frame (df : DataFrame) : Prop :=
  Forall (λ r, int64_cell (quantity r) ∧
               match price r with Some p => int64_cell p | None => True end) df.

(** The dtype of the price column of an [int64_frame]: [int64] when every
    cell is present and [float64] as soon as one cell is missing. *)
Inductive dtype := int64 | float64.

Definition price_dtype (df : DataFrame) : dtype :=
  if existsb (fun r => is_none (price r)) df then float64 else int64.

(** Two's-complement reduction to the signed 64-bit range: the product of
    two [int64] columns wraps around silently. *)
Definition wrap64 (z : Z) : Z := (z + 2 ^ 63) mod 2 ^ 64 - 2 ^ 63.

(** Rounding of an integer to the nearest double (53-bit significand, ties
    to even).  Magnitudes stay below the overflow threshold of a double. *)
Definition round_f64 (z : Z) : Z :=
  let a := Z.abs z in
  if a <=? 2 ^ 53 then z
  else
    let e := Z.log2 a - 52 in
    let m := a / 2 ^ e in
    let r := a mod 2 ^ e in
    let half := 2 ^ (e - 1) in
    let m' := if r <? half then m
              else if half <? r then m + 1
              else if Z.even m then m else m + 1 in
    Z.sgn z * (m' * 2 ^ e).

(** One cell of [price * quantity] in an [int64_frame].  A missing price
    gives a missing product.  A [float64] price column holds doubles: the
    price cell is the double nearest to the integer, the quantity is
    converted to a double, and the product of the two is rounded. *)
Definition mul_cell (dt : dtype) (p : option Z) (q : Z) : option Z :=
  match p with
  | None => None
  | Some p =>
      Some (match dt with
            | int64 => wrap64 (p * q)
            | float64 => round_f64 (round_f64 p * round_f64 q)
            end)
  end.

(** ** The quality partition (lines 53-57) *)

(** [(df['customer_name'].isnull()) | (df['price'] <= 0)] *)
Definition bad_data_mask (df : DataFrame) : list bool :=
  mask_or (isnull (map customer_name df)) (le_scalar (map price df) 0).

(** [df[bad_data_mask]] *)
Definition df_quarantine (df : DataFrame) : DataFrame :=
  select df (bad_data_mask df).

(** [df[~bad_data_mask].copy()] *)
Definition df_clean (df : DataFrame) : DataFrame :=
  select df (mask_not (bad_data_mask df)).

(** Line 65: [df_clean['total_amount'] = df_clean['price'] * df_clean['quantity']] *)
Definition add_total_amount (dt : dtype) (clean : DataFrame) : list CleanRow :=
  zip_with mkClean clean
    (zip_with (mul_cell dt) (map price clean) (map quantity clean)).

(** ** The dimension table (lines 71-73) *)

Definition key_of (r : RawRow) : Key := (product r, category r, price r).
Definition dim_key (d : DimRow) : Key := (d_product d, d_category d, d_price d).

(** [df_clean[['product', 'category', 'price']]] *)
Definition project_key (clean : list CleanRow) : list Key :=
  map (fun c => key_of (row c)) clean.

(** [DataFrame.duplicated(keep='first')]: a row is marked when an equal row
    was seen before it.  Missing cells compare equal to each other. *)
Fixpoint duplicated (seen : list Key) (rows : list Key) : list bool :=
  match rows with
  | [] => []
  | k :: rows' =>
      if bool_decide (k ∈ seen) then true :: duplicated seen rows'
      else false :: duplicated (k :: seen) rows'
  end.

(** [DataFrame.drop_duplicates()] *)
Definition drop_duplicates (rows : list Key) : list Key :=
  select rows (mask_not (duplicated [] rows)).

(** [.reset_index(drop=True)] renumbers the kept rows 0, 1, 2, ...; line 73
    then sets [product_id = index + 1]. *)
Definition assign_product_id (rows : list Key) : list DimRow :=
  imap (fun i k => mkDim k.1.1 k.1.2 k.2 (Z.of_nat i + 1)) rows.

Definition build_dim_product (clean : list CleanRow) : list DimRow :=
  assign_product_id (drop_duplicates (project_key clean)).

(** ** The fact table (lines 77-80) *)

(** One output row of the merge, already projected to the fact columns of
    line 80. *)
Definition fact_of (c : CleanRow) (pid : option Z) : FactRow :=
  mkFact (order_id (row c)) (transaction_date (row c))
         (customer_name (row c)) pid (quantity (row c)) (total_amount c).

(** The dimension rows a left row joins with. *)
Definition matches (c : CleanRow) (dim : list DimRow) : list DimRow :=
  filter (fun d => dim_key d = key_of (row c)) dim.

(** [left.merge(right, on=[...], how='left')]: every left row, in the order
    of the left frame, once per matching right row, and once with a missing
    [product_id] when nothing matches. *)
Definition merge_left (clean : list CleanRow) (dim : list DimRow) : list FactRow :=
  flat_map (fun c =>
              match matches c dim with
              | [] => [fact_of c None]
              | ms => map (fun d => fact_of c (Some (product_id d))) ms
              end) clean.

(** The pure part of [transform_and_model_data]: what it returns. *)
Definition model_data (df : DataFrame) : list DimRow * list FactRow :=
  let clean := add_total_amount (price_dtype df) (df_clean df) in
  let dim_product := build_dim_product clean in
  let fact_sales := merge_left clean dim_product in
  (dim_product, fact_sales).

(** ** The world: files, store, log and I/O failures *)

Definition DB_NAME : string := "enterprise_warehouse.db".
Definition RAW_FILE : string := "daily_sales_raw.csv".
Definition QUARANTINE_FILE : string := "quarantine_data.csv".

(** The operations that touch the outside: reading the source file, writing
    a CSV file, opening the database, replacing a table.  [DropTable] and
    [CreateTable] are the first two steps of a replacement; they are never
    attempted on their own (see [to_sql]). *)
Inductive IOOp :=
  | ReadCsv (path : string)
  | WriteCsv (path : string)
  | Connect (name : string)
  | ToSql (table : string)
  | DropTable (table : string)
  | CreateTable (table : string).

Global Instance IOOp_eq_dec : EqDecision IOOp.
Proof. solve_decision. Defined.

(** The exception a failed operation raises. *)
Inductive exn := IOError (op : IOOp).

Inductive Table :=
  | DimTable (rows : list DimRow)
  | FactTable (rows : list FactRow).

Inductive level := INFO | WARNING | ERROR.

(** The log messages of the script, with the values they interpolate. *)
Inductive message :=
  | GeneratedDummy
  | ExtractionStart
  | Extracted (n : nat)
  | ExtractionFailed (e : exn)
  | TransformStart
  | Quarantined (n : nat)
  | Transformed (n : nat)
  | LoadingStart
  | LoadedDim
  | LoadedFact
  | Completed
  | LoadingFailed (e : exn).

(** [files] are the CSV files by path, [store] the tables of the SQLite
    database by name, [logs] what was logged, [trace] every I/O operation
    attempted so far (oldest first), and [fails] tells which operations
    raise when attempted. *)
Record World := mkWorld {
  files : gmap string DataFrame;
  store : gmap string Table;
  logs : list (level * message);
  trace : list IOOp;
  fails : IOOp -> bool
}.

Definition set_files (f : gmap string DataFrame) (w : World) : World :=
  mkWorld f (store w) (logs w) (trace w) (fails w).
Definition set_store (s : gmap string Table) (w : World) : World :=
  mkWorld (files w) s (logs w) (trace w) (fails w).
Definition set_logs (l : list (level * message)) (w : World) : World :=
  mkWorld (files w) (store w) l (trace w) (fails w).
Definition set_trace (t : list IOOp) (w : World) : World :=
  mkWorld (files w) (store w) (logs w) t (fails w).

(** *** A state monad with exceptions *)

Inductive outcome (A : Type) :=
  | Return (a : A)
  | Raise (e : exn).
Arguments Return {A} a.
Arguments Raise {A} e.

Definition M (A : Type) : Type := World -> outcome A * World.

Definition ret {A} (a : A) : M A := fun w => (Return a, w).

Definition bind {A B} (m : M A) (k : A -> M B) : M B :=
  fun w => match m w with
           | (Return a, w') => k a w'
           | (Raise e, w') => (Raise e, w')
           end.

(** [try: m except Exception as e: h e] *)
Definition try_except {A} (m : M A) (h : exn -> M A) : M A :=
  fun w => match m w with
           | (Return a, w') => (Return a, w')
           | (Raise e, w') => h e w'
           end.

Notation "x <- m ;; k" := (bind m (fun x => k))
  (at level 100, m at next level, right associativity).
Notation "m ;; k" := (bind m (fun _ => k))
  (at level 100, right associativity).

(** *** Primitive effects *)

(** Every operation is recorded in the trace, then raises if it is one of
    the failing ones. *)
Definition attempt (op : IOOp) : M unit :=
  fun w =>
    let w' := set_trace (trace w ++ [op]) w in
    if fails w op then (Raise (IOError op), w') else (Return tt, w').

(** [logging.info], [logging.warning], [logging.error] *)
Definition log (lvl : level) (msg : message) : M unit :=
  fun w => (Return tt, set_logs (logs w ++ [(lvl, msg)]) w).

(** [pd.read_csv(path)]: raises when the file is missing. *)
Definition read_csv (path : string) : M DataFrame :=
  attempt (ReadCsv path) ;;
  fun w => match files w !! path with
           | Some df => (Return df, w)
           | None => (Raise (IOError (ReadCsv path)), w)
           end.

(** [df.to_csv(path, index=False)] *)
Definition to_csv (df : DataFrame) (path : string) : M unit :=
  attempt (WriteCsv path) ;;
  fun w => (Return tt, set_files (<[path := df]> (files w)) w).

(** [sqlite3.connect(name)] *)
Definition connect (name : string) : M unit := attempt (Connect name).

(** [conn.close()] *)
Definition close : M unit := ret tt.

(** An empty table with the columns of [t]. *)
Definition empty_like (t : Table) : Table :=
  match t with
  | DimTable _ => DimTable []
  | FactTable _ => FactTable []
  end.

(** What a replacement that raises leaves of the store.  The replacement
    drops the old table, creates the new one and inserts the rows, and is
    not atomic: it can stop before the drop (nothing changed), between the
    drop and the creation (the table is gone), or in the insertion, which is
    rolled back and leaves the new table empty.  For a call that raises,
    the oracle tells which, at [DropTable name] and [CreateTable name]. *)
Definition interrupted (fl : IOOp → bool) (s : gmap string Table)
    (name : string) (t : Table) : gmap string Table :=
  if fl (DropTable name) then s
  else if fl (CreateTable name) then delete name s
  else <[name := empty_like t]> s.

(** [df.to_sql(name, conn, if_exists='replace', index=False)]: one attempt,
    recorded in the trace.  When it succeeds the table [name] holds the rows
    of [t], whatever it held before; when it raises the store is left as
    [interrupted] says. *)
Definition to_sql (name : string) (t : Table) : M unit :=
  fun w =>
    let w' := set_trace (trace w ++ [ToSql name]) w in
    if fails w (ToSql name)
    then (Raise (IOError (ToSql name)),
          set_store (interrupted (fails w) (store w) name t) w')
    else (Return tt, set_store (<[name := t]> (store w)) w').

(** ** The functions of the script *)

Definition raw_data : DataFrame :=
  [ mkRaw 101 (Some "Alice") "Laptop" "Electronics" (Some 1200) 1 "2023-10-01";
    mkRaw 102 (Some "Bob") "Mouse" "Accessories" (Some 25) 2 "2023-10-01";
    mkRaw 103 (Some "Charlie") "Keyboard" "Accessories" (Some (-50)) 1 "2023-10-01";
    mkRaw 104 (Some "David") "Monitor" "Electronics" (Some 300) 2 "2023-10-02";
    mkRaw 105 None "Mouse" "Accessories" (Some 25) 5 "2023-10-02";
    mkRaw 106 (Some "Frank") "Laptop" "Electronics" (Some 1200) 1 "2023-10-02" ].

Definition generate_dummy_data : M unit :=
  to_csv raw_data RAW_FILE ;;
  log INFO GeneratedDummy.

(** Lines 38-46: a failed read is logged and turned into [None]. *)
Definition extract_data : M (option DataFrame) :=
  log INFO ExtractionStart ;;
  try_except
    (df <- read_csv RAW_FILE ;;
     log INFO (Extracted (length df)) ;;
     ret (Some df))
    (fun e =>
       log ERROR (ExtractionFailed e) ;;
       ret None).

(** Lines 48-83.  The write of the quarantine file is not guarded: an
    exception raised there leaves the function. *)
Definition transform_and_model_data (df : DataFrame) : M (list DimRow * list FactRow) :=
  log INFO TransformStart ;;
  let quarantine := df_quarantine df in
  let clean := df_clean df in
  (match quarantine with
   | [] => ret tt
   | _ :: _ =>
       to_csv quarantine QUARANTINE_FILE ;;
       log WARNING (Quarantined (length quarantine))
   end) ;;
  let clean := add_total_amount (price_dtype df) clean in
  let dim_product := build_dim_product clean in
  let fact_sales := merge_left clean dim_product in
  log INFO (Transformed (length fact_sales)) ;;
  ret (dim_product, fact_sales).

(** Lines 85-101: every exception raised between [connect] and the last
    log call is caught, logged and dropped; the function returns normally. *)
Definition load_data (dim_df : list DimRow) (fact_df : list FactRow) : M unit :=
  log INFO LoadingStart ;;
  try_except
    (connect DB_NAME ;;
     to_sql "dim_product" (DimTable dim_df) ;;
     log INFO LoadedDim ;;
     to_sql "fact_sales" (FactTable fact_df) ;;
     log INFO LoadedFact ;;
     close ;;
     log INFO Completed)
    (fun e => log ERROR (LoadingFailed e)).

(** Lines 107-111: extraction, then transformation and loading when
    extraction returned a frame. *)
Definition run_pipeline : M unit :=
  df_raw <- extract_data ;;
  match df_raw with
  | Some df =>
      r <- transform_and_model_data df ;;
      load_data r.1 r.2
  | None => ret tt
  end.

(** Lines 105-111 of the [__main__] block.  The report of lines 113-123,
    which reopens the database, queries both tables (and raises when one is
    missing) and prints, is not part of this definition. *)
Definition main : M unit :=
  generate_dummy_data ;;
  run_pipeline.

(** A world with no file, an empty store, nothing logged, where no
    operation fails. *)
Definition fresh_world : World :=
  mkWorld ∅ ∅ [] [] (fun _ => false).

(** ** Vocabulary of the statements *)

(** [price <= 0] as the comparison evaluates it: false on a missing price. *)
Definition price_le_zero (r : RawRow) : Prop :=
  match price r with Some p => p ≤ 0 | None => False end.

(** The quality rule: the name is missing or the price is not positive. *)
Definition invalid (r : RawRow) : Prop :=
  customer_name r = None ∨ price_le_zero r.

Global Instance price_le_zero_dec r : Decision (price_le_zero r).
Proof. unfold price_le_zero. destruct (price r); apply _. Defined.
Global Instance invalid_dec r : Decision (invalid r).
Proof. unfold invalid. apply _. Defined.

(** [Interleave l1 l2 l]: [l] is split into [l1] and [l2], every position
    of [l] going to exactly one of the two, both keeping the order of [l]. *)
Inductive Interleave {A} : list A → list A → list A → Prop :=
  | Interleave_nil : Interleave [] [] []
  | Interleave_left x l1 l2 l :
      Interleave l1 l2 l → Interleave (x :: l1) l2 (x :: l)
  | Interleave_right x l1 l2 l :
      Interleave l1 l2 l → Interleave l1 (x :: l2) (x :: l).

(** Position [i] is where [k] occurs first in [l]. *)
Definition first_occurrence {A} (k : A) (l : list A) (i : nat) : Prop :=
  l !! i = Some k ∧ ∀ j, (j < i)%nat → l !! j ≠ Some k.

(** [drop_duplicates] with rows already seen, for the inductions. *)
Definition drop_seen (seen rows : list Key) : list Key :=
  select rows (mask_not (duplicated seen rows)).

(** ** Worlds and batches of the examples *)

(** A batch whose only row has a price and a quantity that fit in 64 bits
    while their product does not. *)
Definition overflow_batch : DataFrame :=
  [ mkRaw 1 (Some "Alice") "Laptop" "Electronics" (Some (2 ^ 62)) 4 "2023-10-01" ].



(** A world where the source file cannot be read. *)
Definition source_down : World :=
  mkWorld ∅ ∅ [] [] (λ op, bool_decide (op = ReadCsv RAW_FILE)).

(** A batch with a row whose price is missing and whose name is present. *)
Definition missing_price_batch : DataFrame :=
  [ mkRaw 201 (Some "Grace") "Cable" "Accessories" None 3 "2023-10-03";
    mkRaw 202 (Some "Heidi") "Cable" "Accessories" (Some 7) 2 "2023-10-03" ].

(** The world [load_data] leaves when operation [op] fails after the
    operations [ops] succeeded and the messages [said] were logged. *)
Definition loading_failed (w : World) (said : list (level * message))
    (ops : list IOOp) (op : IOOp) (s : gmap string Table) : World :=
  mkWorld (files w) s
    (logs w ++ [(INFO, LoadingStart)] ++ said ++ [(ERROR, LoadingFailed (IOError op))])
    (trace w ++ ops ++ [op]) (fails w).

(** The storage operations of [load_data] all succeed in [w]. *)
Definition storage_ok (w : World) : Prop :=
  fails w (Connect DB_NAME) = false ∧
  fails w (ToSql "dim_product") = false ∧
  fails w (ToSql "fact_sales") = false.

(** Every operation of lines 107-111 succeeds in [w]. *)
Definition pipeline_ok (w : World) : Prop :=
  fails w (ReadCsv RAW_FILE) = false ∧
  fails w (WriteCsv QUARANTINE_FILE) = false ∧
  storage_ok w.

(** The price cell of a dimension row is positive or missing. *)
Definition positive_or_missing (p : option Z) : Prop :=
  match p with Some z => 0 < z | None => True end.

(** A batch without invalid rows; two rows share their product tuple. *)
Definition all_valid_batch : DataFrame :=
  [ mkRaw 301 (Some "Ivan") "Desk" "Furniture" (Some 150) 1 "2023-10-04";
    mkRaw 302 (Some "Judy") "Lamp" "Furniture" (Some 40) 3 "2023-10-04";
    mkRaw 303 (Some "Mallory") "Desk" "Furniture" (Some 150) 2 "2023-10-05" ].

(** A world left by an earlier run: the source file holds [all_valid_batch],
    a quarantine file and both tables exist, and an unrelated table too. *)
Definition used_world : World :=
  mkWorld
    (<[RAW_FILE := all_valid_batch]>
       (<[QUARANTINE_FILE := [mkRaw 9 None "Pen" "Office" (Some 2) 1 "2023-09-30"]]> ∅))
    (<["dim_product" := DimTable [mkDim "Pen" "Office" (Some 2) 1]]>
       (<["audit" := FactTable []]> ∅))
    [] [] (λ _, false).

(** A world where the source file holds the dummy data and nothing fails. *)
Definition dummy_world : World :=
  mkWorld (<[RAW_FILE := raw_data]> ∅) ∅ [] [] (λ _, false).

(** A world where the database cannot be opened. *)
Definition database_down : World :=
  mkWorld ∅ ∅ [] [] (λ op, bool_decide (op = Connect DB_NAME)).


(** A dimension that knows one product only, for joins that miss. *)
Definition foreign_dim : list DimRow :=
  [ mkDim "Desk" "Furniture" (Some 150) 7 ].

(** ** The partition *)

Lemma bad_data_mask_map (df : DataFrame) :
  bad_data_mask df = map (λ r, bool_decide (invalid r)) df.
Proof.
  unfold bad_data_mask, mask_or, isnull, le_scalar.
  induction df as [|r df IH]; [done|]. cbn [map zip_with]. rewrite IH. f_equal.
  destruct (decide (invalid r)) as [Hinv|Hinv].
  - rewrite bool_decide_eq_true_2 by done.
    destruct Hinv as [Hn|Hp].
    + by rewrite Hn.
    + unfold price_le_zero in Hp. destruct (price r) as [p|]; [|done].
      apply orb_true_iff. right. by apply Z.leb_le.
  - rewrite bool_decide_eq_false_2 by done.
    apply orb_false_iff. split.
    + destruct (customer_name r) eqn:Hn; [done|]. destruct Hinv. by left.
    + destruct (price r) as [p|] eqn:Hp; [|done].
      apply Z.leb_gt. destruct (Z.le_gt_cases p 0) as [Hle|?]; [|lia].
      destruct Hinv. right. unfold price_le_zero. by rewrite Hp.
Qed.

Section select_filter.
Context {A : Type} (P : A → Prop) `{!∀ x, Decision (P x)}.

Lemma select_bool_decide (l : list A) :
  select l (map (λ x, bool_decide (P x)) l) = filter P l.
Proof.
  induction l as [|x l IH]; [done|]. cbn [map select].
  rewrite filter_cons, IH. destruct (decide (P x)) as [HP|HP].
  - by rewrite bool_decide_eq_true_2.
  - by rewrite bool_decide_eq_false_2.
Qed.

Lemma select_not_bool_decide (l : list A) :
  select l (mask_not (map (λ x, bool_decide (P x)) l)) = filter (λ x, ¬ P x) l.
Proof.
  unfold mask_not.
  induction l as [|x l IH]; [done|]. cbn [map select].
  rewrite filter_cons, IH. destruct (decide (P x)) as [HP|HP].
  - rewrite bool_decide_eq_true_2 by done. cbn. by rewrite decide_False by tauto.
  - rewrite bool_decide_eq_false_2 by done. cbn. by rewrite decide_True by tauto.
Qed.

Lemma filter_Interleave (l : list A) :
  Interleave (filter (λ x, ¬ P x) l) (filter P l) l.
Proof.
  induction l as [|x l IH]; [constructor|].
  rewrite !filter_cons. destruct (decide (P x)).
  - rewrite decide_False by tauto. by constructor.
  - rewrite decide_True by tauto. by constructor.
Qed.

Lemma filter_none (l : list A) :
  (∀ x, x ∈ l → ¬ P x) → filter P l = [].
Proof.
  induction l as [|y l IH]; intros Hl; [done|].
  rewrite filter_cons_False by (apply Hl; left).
  apply IH. intros x Hx. apply Hl. by right.
Qed.
End select_filter.

Section interleave.
Context {A : Type}.
Implicit Types l : list A.

Lemma Interleave_length l1 l2 l :
  Interleave l1 l2 l → (length l1 + length l2 = length l)%nat.
Proof. induction 1; cbn; lia. Qed.

Lemma Interleave_sublist l1 l2 l :
  Interleave l1 l2 l → sublist l1 l ∧ sublist l2 l.
Proof.
  induction 1 as [|x l1 l2 l _ [IH1 IH2]|x l1 l2 l _ [IH1 IH2]]; split;
    try constructor; done.
Qed.

Lemma Interleave_Permutation l1 l2 l :
  Interleave l1 l2 l → l1 ++ l2 ≡ₚ l.
Proof.
  induction 1 as [|x l1 l2 l _ IH|x l1 l2 l _ IH]; cbn.
  - done.
  - by rewrite IH.
  - by rewrite <- Permutation_middle, IH.
Qed.
End interleave.

Lemma df_quarantine_filter (df : DataFrame) :
  df_quarantine df = filter invalid df.
Proof.
  unfold df_quarantine. rewrite bad_data_mask_map. apply select_bool_decide.
Qed.

Lemma df_clean_filter (df : DataFrame) :
  df_clean df = filter (λ r, ¬ invalid r) df.
Proof.
  unfold df_clean. rewrite bad_data_mask_map. apply select_not_bool_decide.
Qed.

(** C1: a record of the input batch is put in quarantine exactly when its
    name is missing or its price is at most 0, and among the valid rows
    otherwise; the mask cell of a row is computed from that row alone, and a
    price of exactly 0 is invalid. *)
Theorem partition_rule (df : DataFrame) :
  (∀ i r, df !! i = Some r →
     bad_data_mask df !! i = Some (bool_decide (invalid r))) ∧
  df_quarantine df = filter invalid df ∧
  df_clean df = filter (λ r, ¬ invalid r) df ∧
  (∀ r, r ∈ df_quarantine df ↔ r ∈ df ∧ invalid r) ∧
  (∀ r, r ∈ df_clean df ↔ r ∈ df ∧ ¬ invalid r) ∧
  (∀ r, r ∈ df → price r = Some 0 → r ∈ df_quarantine df ∧ r ∉ df_clean df).
Proof.
  split_and!.
  - intros i r Hi. rewrite bad_data_mask_map.
    change (map ?f ?l) with (f <$> l). by rewrite list_lookup_fmap, Hi.
  - apply df_quarantine_filter.
  - apply df_clean_filter.
  - intros r. rewrite df_quarantine_filter, list_elem_of_filter. tauto.
  - intros r. rewrite df_clean_filter, list_elem_of_filter. tauto.
  - intros r Hr Hp.
    assert (invalid r) as Hinv by (right; unfold price_le_zero; rewrite Hp; lia).
    rewrite df_quarantine_filter, df_clean_filter, !list_elem_of_filter. tauto.
Qed.

(** C4: the partition loses and repeats nothing: the two outputs together
    have as many rows as the input, the input is an interleaving of them
    (every input position goes to exactly one output, and both keep the
    input order), no row is in both, and an empty batch gives two empty
    batches. *)
Theorem partition_total_lossless (df : DataFrame) :
  (length (df_clean df) + length (df_quarantine df) = length df)%nat ∧
  Interleave (df_clean df) (df_quarantine df) df ∧
  df_clean df ++ df_quarantine df ≡ₚ df ∧
  sublist (df_clean df) df ∧ sublist (df_quarantine df) df ∧
  (∀ r, r ∈ df → (r ∈ df_clean df ∧ r ∉ df_quarantine df) ∨
                 (r ∈ df_quarantine df ∧ r ∉ df_clean df)) ∧
  df_clean [] = [] ∧ df_quarantine [] = [].
Proof.
  assert (Interleave (df_clean df) (df_quarantine df) df) as HI.
  { rewrite df_clean_filter, df_quarantine_filter. apply filter_Interleave. }
  split_and!; try done.
  - by apply Interleave_length.
  - by apply Interleave_Permutation.
  - by apply Interleave_sublist in HI as [? ?].
  - by apply Interleave_sublist in HI as [? ?].
  - intros r Hr. rewrite df_clean_filter, df_quarantine_filter.
    rewrite !list_elem_of_filter. destruct (decide (invalid r)); tauto.
Qed.

(** ** The dimension table *)

Lemma drop_seen_cons_in (seen : list Key) k l :
  k ∈ seen → drop_seen seen (k :: l) = drop_seen seen l.
Proof.
  intros Hk. unfold drop_seen. cbn [duplicated].
  by rewrite bool_decide_eq_true_2.
Qed.

Lemma drop_seen_cons_notin (seen : list Key) k l :
  k ∉ seen → drop_seen seen (k :: l) = k :: drop_seen (k :: seen) l.
Proof.
  intros Hk. unfold drop_seen. cbn [duplicated].
  by rewrite bool_decide_eq_false_2.
Qed.

Lemma elem_of_drop_seen (seen l : list Key) x :
  x ∈ drop_seen seen l ↔ x ∈ l ∧ x ∉ seen.
Proof.
  revert seen. induction l as [|k l IH]; intros seen.
  - unfold drop_seen. cbn. rewrite !elem_of_nil. tauto.
  - destruct (decide (k ∈ seen)) as [Hk|Hk].
    + rewrite drop_seen_cons_in, IH, elem_of_cons by done.
      split; [tauto|]. intros [[->|?] ?]; tauto.
    + rewrite drop_seen_cons_notin, !elem_of_cons, IH, elem_of_cons by done.
      split.
      * intros [->|[? ?]]; tauto.
      * intros [[->|?] ?]; [tauto|]. destruct (decide (x = k)); tauto.
Qed.

Lemma NoDup_drop_seen (seen l : list Key) : NoDup (drop_seen seen l).
Proof.
  revert seen. induction l as [|k l IH]; intros seen.
  - constructor.
  - destruct (decide (k ∈ seen)) as [Hk|Hk].
    + rewrite drop_seen_cons_in by done. apply IH.
    + rewrite drop_seen_cons_notin by done. constructor; [|apply IH].
      rewrite elem_of_drop_seen, elem_of_cons. tauto.
Qed.

Lemma first_occurrence_here {A} (k : A) l : first_occurrence k (k :: l) 0.
Proof. split; [done|]. intros j Hj. lia. Qed.

Lemma first_occurrence_later {A} (k x : A) l i :
  k ≠ x → first_occurrence k l i → first_occurrence k (x :: l) (S i).
Proof.
  intros Hne [Hi Hfirst]. split; [done|].
  intros [|j] Hj; cbn; [congruence|]. apply Hfirst. lia.
Qed.

Lemma first_occurrence_exists {A} `{EqDecision A} (k : A) l :
  k ∈ l → ∃ i, first_occurrence k l i.
Proof.
  induction l as [|x l IH]; [by rewrite elem_of_nil|].
  intros Hk. destruct (decide (k = x)) as [->|Hne].
  - exists 0%nat. apply first_occurrence_here.
  - apply elem_of_cons in Hk as [?|Hk]; [done|].
    destruct (IH Hk) as [i Hi]. exists (S i). by apply first_occurrence_later.
Qed.

Lemma first_occurrence_inj {A} (k : A) l i j :
  first_occurrence k l i → first_occurrence k l j → i = j.
Proof.
  intros [Hi Hfi] [Hj Hfj].
  destruct (Nat.lt_trichotomy i j) as [Hlt|[?|Hlt]]; [|done|].
  - by destruct (Hfj i Hlt).
  - by destruct (Hfi j Hlt).
Qed.

(** The rows [drop_duplicates] keeps are in the order of their first
    occurrences. *)
Lemma drop_seen_order (seen l : list Key) i j ki kj :
  (i < j)%nat →
  drop_seen seen l !! i = Some ki → drop_seen seen l !! j = Some kj →
  ∃ a b, first_occurrence ki l a ∧ first_occurrence kj l b ∧ (a < b)%nat.
Proof.
  revert seen i j. induction l as [|k l IH]; intros seen i j Hij Hi Hj.
  - by unfold drop_seen in Hi.
  - destruct (decide (k ∈ seen)) as [Hk|Hk].
    + rewrite drop_seen_cons_in in Hi, Hj by done.
      destruct (IH seen i j Hij Hi Hj) as (a & b & Ha & Hb & Hab).
      assert ((ki ∉ seen) ∧ (kj ∉ seen)) as [? ?].
      { split; eapply proj2, elem_of_drop_seen, list_elem_of_lookup_2; eauto. }
      exists (S a), (S b). split_and!; [| |lia];
        apply first_occurrence_later; try done; congruence.
    + rewrite drop_seen_cons_notin in Hi, Hj by done.
      destruct j as [|j]; [lia|]. cbn in Hj.
      assert (kj ∈ l ∧ kj ≠ k) as [Hkjl Hkj].
      { apply list_elem_of_lookup_2, elem_of_drop_seen in Hj as [? Hn].
        rewrite elem_of_cons in Hn. tauto. }
      destruct i as [|i].
      * injection Hi as <-.
        destruct (first_occurrence_exists kj l Hkjl) as [b Hb].
        exists 0%nat, (S b). split_and!; [apply first_occurrence_here| |lia].
        by apply first_occurrence_later.
      * cbn in Hi.
        assert (i < j)%nat as Hij' by lia.
        destruct (IH (k :: seen) i j Hij' Hi Hj) as (a & b & Ha & Hb & Hab).
        assert (ki ≠ k).
        { apply list_elem_of_lookup_2, elem_of_drop_seen in Hi as [? Hn].
          rewrite elem_of_cons in Hn. tauto. }
        exists (S a), (S b). split_and!; [| |lia];
          by apply first_occurrence_later.
Qed.

Lemma lookup_assign_product_id (rows : list Key) i :
  assign_product_id rows !! i =
  (λ k, mkDim k.1.1 k.1.2 k.2 (Z.of_nat i + 1)) <$> rows !! i.
Proof. unfold assign_product_id. apply list_lookup_imap. Qed.

Lemma length_assign_product_id (rows : list Key) :
  length (assign_product_id rows) = length rows.
Proof. unfold assign_product_id. apply length_imap. Qed.

Lemma dim_key_assign_product_id (rows : list Key) :
  map dim_key (assign_product_id rows) = rows.
Proof.
  change (map ?f ?l) with (f <$> l). apply list_eq. intros i.
  rewrite list_lookup_fmap, lookup_assign_product_id.
  by destruct (rows !! i) as [[[? ?] ?]|].
Qed.

Lemma product_id_assign_product_id (rows : list Key) :
  map product_id (assign_product_id rows) =
  map Z.of_nat (seq 1 (length rows)).
Proof.
  change (map ?f ?l) with (f <$> l). apply list_eq. intros i.
  rewrite !list_lookup_fmap, lookup_assign_product_id.
  destruct (rows !! i) as [k|] eqn:Hk; cbn.
  - rewrite lookup_seq_lt by (by eapply lookup_lt_Some). cbn. f_equal. lia.
  - rewrite lookup_seq_ge by (by apply lookup_ge_None). done.
Qed.

Lemma dimension_keys_aux (clean : list CleanRow) :
  NoDup (map dim_key (build_dim_product clean)) ∧
  (∀ k, k ∈ map dim_key (build_dim_product clean) ↔ k ∈ project_key clean).
Proof.
  unfold build_dim_product. rewrite dim_key_assign_product_id.
  change (drop_duplicates ?l) with (drop_seen [] l). split.
  - apply NoDup_drop_seen.
  - intros k. rewrite elem_of_drop_seen, elem_of_nil. tauto.
Qed.

Lemma NoDup_product_id (clean : list CleanRow) :
  NoDup (map product_id (build_dim_product clean)).
Proof.
  unfold build_dim_product. rewrite product_id_assign_product_id.
  change (map ?f ?l) with (f <$> l). apply (NoDup_fmap_2 _), NoDup_seq.
Qed.

(** C2: the dimension batch has one row per distinct (product, category,
    price) tuple of the valid batch: its tuples are pairwise different and
    are exactly the tuples that occur in the valid batch; its rows stand in
    the order in which their tuples occur first in the valid batch; and the
    row at index [i] has [product_id = i + 1], so the ids are exactly
    1, ..., len(dimension). *)
Theorem dimension_dense_keys (clean : list CleanRow) :
  let dim := build_dim_product clean in
  let dim_tuples := map (λ d, (d_product d, d_category d, d_price d)) dim in
  let valid_tuples :=
    map (λ c, (product (row c), category (row c), price (row c))) clean in
  NoDup dim_tuples ∧
  (∀ k, k ∈ dim_tuples ↔ k ∈ valid_tuples) ∧
  (∀ i j ki kj, (i < j)%nat →
     dim_tuples !! i = Some ki → dim_tuples !! j = Some kj →
     ∃ a b, (valid_tuples !! a = Some ki ∧
             ∀ a', (a' < a)%nat → valid_tuples !! a' ≠ Some ki) ∧
            (valid_tuples !! b = Some kj ∧
             ∀ b', (b' < b)%nat → valid_tuples !! b' ≠ Some kj) ∧
            (a < b)%nat) ∧
  (∀ i d, dim !! i = Some d → product_id d = Z.of_nat i + 1) ∧
  map product_id dim = map Z.of_nat (seq 1 (length dim)) ∧
  NoDup (map product_id dim) ∧
  (∀ n, n ∈ map product_id dim ↔ 1 ≤ n ≤ Z.of_nat (length dim)).
Proof.
  intros dim dim_tuples valid_tuples.
  change dim_tuples with (map dim_key dim).
  change valid_tuples with (project_key clean).
  subst dim. unfold build_dim_product.
  rewrite dim_key_assign_product_id, product_id_assign_product_id,
    length_assign_product_id.
  change (drop_duplicates ?l) with (drop_seen [] l).
  set (keys := project_key clean).
  split_and!.
  - apply NoDup_drop_seen.
  - intros k. rewrite elem_of_drop_seen, elem_of_nil. tauto.
  - intros i j ki kj. apply drop_seen_order.
  - intros i d. rewrite lookup_assign_product_id.
    destruct (drop_seen [] keys !! i); [|done]. by intros [= <-].
  - done.
  - change (map ?f ?l) with (f <$> l).
    apply (NoDup_fmap_2 _), NoDup_seq.
  - intros n. change (map ?f ?l) with (f <$> l).
    rewrite list_elem_of_fmap. setoid_rewrite elem_of_seq. split.
    + intros (m & -> & ?). lia.
    + intros ?. exists (Z.to_nat n). lia.
Qed.

(** ** The fact table *)

Lemma add_total_amount_map (dt : dtype) (clean : DataFrame) :
  add_total_amount dt clean =
  map (λ r, mkClean r (mul_cell dt (price r) (quantity r))) clean.
Proof.
  unfold add_total_amount. induction clean as [|r l IH]; [done|].
  cbn. by rewrite <- IH.
Qed.

Lemma row_add_total_amount (dt : dtype) (clean : DataFrame) :
  map row (add_total_amount dt clean) = clean.
Proof.
  rewrite add_total_amount_map, map_map. cbn. apply map_id.
Qed.

Lemma filter_unique {A B} `{EqDecision B} (f : A → B) (l : list A) d :
  NoDup (map f l) → d ∈ l → filter (λ x, f x = f d) l = [d].
Proof.
  induction l as [|y l IH]; cbn [map]; [by rewrite elem_of_nil|].
  rewrite NoDup_cons, elem_of_cons. intros [Hy Hnd] Hd.
  rewrite filter_cons. destruct Hd as [->|Hd].
  - rewrite decide_True by done. f_equal.
    apply filter_none. intros x Hx Hfx.
    apply Hy. rewrite <- Hfx. change (map f l) with (f <$> l).
    by apply list_elem_of_fmap_2.
  - rewrite decide_False; [by apply IH|].
    intros Hfy. apply Hy. rewrite Hfy. change (map f l) with (f <$> l).
    by apply list_elem_of_fmap_2.
Qed.

Lemma NoDup_map_inj {A B} `{EqDecision B} (f : A → B) (l : list A) x y :
  NoDup (map f l) → x ∈ l → y ∈ l → f x = f y → x = y.
Proof.
  intros Hnd Hx Hy Hxy.
  assert (x ∈ filter (λ z, f z = f y) l) as Hin by (by apply list_elem_of_filter).
  rewrite (filter_unique f l y Hnd Hy) in Hin. by apply list_elem_of_singleton in Hin.
Qed.

Lemma merge_left_single (clean : list CleanRow) (dim : list DimRow) :
  (∀ c, c ∈ clean → ∃ d, matches c dim = [d]) →
  merge_left clean dim =
  map (λ c, fact_of c (product_id <$> head (matches c dim))) clean.
Proof.
  unfold merge_left. induction clean as [|c l IH]; intros Hm; [done|].
  cbn [flat_map]. rewrite IH by (intros c' Hc'; apply Hm; by right).
  destruct (Hm c) as [d Hd]; [left|]. rewrite Hd. cbn. by rewrite Hd.
Qed.

(** Every row of the valid batch joins with exactly one row of the
    dimension built from that batch. *)
Lemma matches_build_dim_product (clean : list CleanRow) c :
  c ∈ clean →
  ∃ d, d ∈ build_dim_product clean ∧ dim_key d = key_of (row c) ∧
       matches c (build_dim_product clean) = [d].
Proof.
  intros Hc. destruct (dimension_keys_aux clean) as [Hnd Hin].
  assert (key_of (row c) ∈ map dim_key (build_dim_product clean)) as Hk.
  { apply Hin. unfold project_key. change (map ?f ?l) with (f <$> l).
    by apply (list_elem_of_fmap_2 (λ c, key_of (row c))). }
  change (map ?f ?l) with (f <$> l) in Hk.
  apply list_elem_of_fmap in Hk as (d & Hd & Hdin).
  exists d. split_and!; [done..|].
  unfold matches. rewrite Hd. by apply filter_unique.
Qed.

Lemma merge_build_map (clean : list CleanRow) :
  merge_left clean (build_dim_product clean) =
  map (λ c, fact_of c (product_id <$> head (matches c (build_dim_product clean))))
      clean.
Proof.
  apply merge_left_single. intros c Hc.
  destruct (matches_build_dim_product clean c Hc) as (d & _ & _ & Hd). eauto.
Qed.

Lemma merge_build_lookup (clean : list CleanRow) i c :
  clean !! i = Some c →
  ∃ d, d ∈ build_dim_product clean ∧ dim_key d = key_of (row c) ∧
       matches c (build_dim_product clean) = [d] ∧
       merge_left clean (build_dim_product clean) !! i =
       Some (fact_of c (Some (product_id d))).
Proof.
  intros Hi.
  destruct (matches_build_dim_product clean c) as (d & Hd & Hk & Hm).
  { by eapply list_elem_of_lookup_2. }
  exists d. split_and!; [done..|].
  rewrite merge_build_map. change (map ?f ?l) with (f <$> l).
  rewrite list_lookup_fmap, Hi. cbn. by rewrite Hm.
Qed.

(** C3: the fact batch has as many rows as the valid batch, and the fact
    row at index [i] is the row of the valid record at index [i]: it has
    that record's order id, date, customer, quantity and total amount, and
    its [product_id] is that of a dimension row with the record's (product,
    category, price); this is the only dimension row with that tuple and the
    only one with that [product_id]. *)
Theorem fact_one_row_per_valid (clean : list CleanRow) :
  let dim := build_dim_product clean in
  let fact := merge_left clean dim in
  length fact = length clean ∧
  ∀ i c, clean !! i = Some c →
    ∃ f d, fact !! i = Some f ∧
           f_order_id f = order_id (row c) ∧
           f_transaction_date f = transaction_date (row c) ∧
           f_customer_name f = customer_name (row c) ∧
           f_quantity f = quantity (row c) ∧
           f_total_amount f = total_amount c ∧
           f_product_id f = Some (product_id d) ∧
           d ∈ dim ∧
           d_product d = product (row c) ∧
           d_category d = category (row c) ∧
           d_price d = price (row c) ∧
           (∀ d', d' ∈ dim → product_id d' = product_id d → d' = d) ∧
           (∀ d', d' ∈ dim → d_product d' = product (row c) →
                  d_category d' = category (row c) →
                  d_price d' = price (row c) → d' = d).
Proof.
  intros dim fact. subst dim fact. split.
  - rewrite merge_build_map. apply length_map.
  - intros i c Hi.
    destruct (merge_build_lookup clean i c Hi) as (d & Hd & Hk & Hm & Hf).
    assert (d_product d = product (row c) ∧ d_category d = category (row c) ∧
            d_price d = price (row c)) as (Hp & Hc & Hpr)
      by (unfold dim_key, key_of in Hk; split_and!; congruence).
    eexists _, d. split; [exact Hf|]. cbn. split_and!; try done.
    + intros d' Hd' Hpid. eapply (NoDup_map_inj product_id); [|done..].
      apply NoDup_product_id.
    + intros d' Hd' Hp' Hc' Hpr'.
      eapply (NoDup_map_inj dim_key); [apply dimension_keys_aux|done..|].
      unfold dim_key. congruence.
Qed.

(** ** The total amount *)

Example wrap64_examples :
  wrap64 (2 ^ 63 - 1) = 2 ^ 63 - 1 ∧ wrap64 (2 ^ 63) = - 2 ^ 63 ∧
  wrap64 (- 2 ^ 63 - 1) = 2 ^ 63 - 1 ∧ wrap64 (2 ^ 64 + 5) = 5.
Proof. by vm_compute. Qed.

Example round_f64_examples :
  round_f64 (2 ^ 53 + 1) = 2 ^ 53 ∧ round_f64 (2 ^ 53 + 2) = 2 ^ 53 + 2 ∧
  round_f64 (2 ^ 53 + 3) = 2 ^ 53 + 4 ∧ round_f64 (- (2 ^ 54 + 2)) = - 2 ^ 54 ∧
  round_f64 (2 ^ 54 + 6) = 2 ^ 54 + 8 ∧ round_f64 (2 ^ 54 - 1) = 2 ^ 54.
Proof. by vm_compute. Qed.

Lemma wrap64_small z : - 2 ^ 63 ≤ z < 2 ^ 63 → wrap64 z = z.
Proof. intros Hz. unfold wrap64. rewrite Z.mod_small; lia. Qed.

Lemma round_f64_small z : Z.abs z ≤ 2 ^ 53 → round_f64 z = z.
Proof.
  intros Hz. unfold round_f64.
  destruct (Z.leb_spec (Z.abs z) (2 ^ 53)); [done|lia].
Qed.

Lemma df_clean_valid (df : DataFrame) i r :
  df_clean df !! i = Some r → r ∈ df ∧ ¬ invalid r.
Proof.
  intros Hi. apply list_elem_of_lookup_2 in Hi.
  rewrite df_clean_filter, list_elem_of_filter in Hi. tauto.
Qed.

(** The fact row of the valid row at index [i]. *)
Lemma model_data_lookup (df : DataFrame) i r :
  df_clean df !! i = Some r →
  ∃ d, d ∈ (model_data df).1 ∧ dim_key d = key_of r ∧
       (model_data df).2 !! i =
       Some (mkFact (order_id r) (transaction_date r) (customer_name r)
                    (Some (product_id d)) (quantity r)
                    (mul_cell (price_dtype df) (price r) (quantity r))).
Proof.
  intros Hi. unfold model_data. cbn [fst snd].
  set (clean := add_total_amount (price_dtype df) (df_clean df)).
  assert (clean !! i =
          Some (mkClean r (mul_cell (price_dtype df) (price r) (quantity r))))
    as Hc.
  { subst clean. rewrite add_total_amount_map.
    change (map ?f ?l) with (f <$> l). by rewrite list_lookup_fmap, Hi. }
  destruct (merge_build_lookup clean i _ Hc) as (d & Hd & Hk & _ & Hf).
  exists d. split_and!; done.
Qed.

Lemma price_dtype_int64 (df : DataFrame) :
  Forall (λ r, is_Some (price r)) df → price_dtype df = int64.
Proof.
  intros Hall. unfold price_dtype.
  destruct (existsb _ df) eqn:He; [|done].
  apply existsb_exists in He as (r & Hr & Hn).
  rewrite Forall_forall in Hall. apply list_elem_of_In, Hall in Hr as [p Hp].
  by rewrite Hp in Hn.
Qed.

Lemma price_dtype_float64 (df : DataFrame) :
  (∃ r, r ∈ df ∧ price r = None) → price_dtype df = float64.
Proof.
  intros (r & Hr & Hn). unfold price_dtype.
  destruct (existsb _ df) eqn:He; [done|].
  assert (existsb (λ r, is_none (price r)) df = true) as Ht; [|congruence].
  apply existsb_exists. exists r. split; [by apply list_elem_of_In|].
  by rewrite Hn.
Qed.

(** C5, amended: in a frame whose quantities and present prices fit in 64
    bits, the fact row of a valid record carries the product of the
    record's own price and quantity as the columns are multiplied before
    the join.  When no price of the frame is missing (two int64 columns) it
    is the product reduced to the signed 64-bit range, hence price ×
    quantity exactly when that lies in the range.  When some price of the
    frame is missing (a float64 price column, whose cells are doubles) it is
    the product of the price and of the quantity converted to a double,
    rounded to the nearest double, hence price × quantity exactly when that
    has magnitude at most 2^53.  It is missing when the price is missing. *)
Theorem total_amount_column_product (df : DataFrame) i r :
  int64_frame df →
  df_clean df !! i = Some r →
  ∃ f, (model_data df).2 !! i = Some f ∧
       f_order_id f = order_id r ∧ f_quantity f = quantity r ∧
       (∀ p, price r = Some p → Forall (λ r', is_Some (price r')) df →
             f_total_amount f = Some (wrap64 (p * quantity r)) ∧
             (- 2 ^ 63 ≤ p * quantity r < 2 ^ 63 →
              f_total_amount f = Some (p * quantity r))) ∧
       (∀ p, price r = Some p → (∃ r', r' ∈ df ∧ price r' = None) →
             round_f64 p = p →
             f_total_amount f =
               Some (round_f64 (p * round_f64 (quantity r))) ∧
             (Z.abs (p * quantity r) ≤ 2 ^ 53 →
              f_total_amount f = Some (p * quantity r))) ∧
       (price r = None → f_total_amount f = None).
Proof.
  intros _ Hi. destruct (model_data_lookup df i r Hi) as (d & _ & _ & Hf).
  eexists. split; [exact Hf|]. cbn [f_order_id f_quantity f_total_amount].
  split_and!; try done.
  - intros p Hp Hall. rewrite Hp, (price_dtype_int64 df Hall). cbn.
    split; [done|]. intros Hr. by rewrite wrap64_small.
  - intros p Hp Hmiss Hdbl. rewrite Hp, (price_dtype_float64 df Hmiss). cbn.
    rewrite Hdbl. split; [done|]. intros Hr. f_equal.
    apply df_clean_valid in Hi as [_ Hv].
    assert (0 < p) as Hpos.
    { destruct (Z.lt_ge_cases 0 p) as [|Hle]; [done|].
      destruct Hv. right. unfold price_le_zero. rewrite Hp. lia. }
    rewrite Z.abs_mul in Hr.
    assert (Z.abs (quantity r) ≤ 2 ^ 53) as Hq by nia.
    rewrite (round_f64_small (quantity r)) by done.
    destruct (decide (quantity r = 0)) as [Hq0|Hq0].
    + by rewrite Hq0, !Z.mul_0_r.
    + apply round_f64_small. by rewrite Z.abs_mul.
  - intros Hp. by rewrite Hp.
Qed.

(** ** Runs of the script *)

Ltac run_step :=
  repeat progress
    (unfold bind, try_except, close, ret, log, to_csv, to_sql, read_csv,
       connect, attempt, set_logs, set_trace, set_files, set_store;
     cbn beta iota zeta delta [files store logs trace fails fst snd]).

Lemma transform_run_clean (df : DataFrame) (w : World) :
  df_quarantine df = [] →
  transform_and_model_data df w =
  (Return (model_data df),
   mkWorld (files w) (store w)
     (logs w ++ [(INFO, TransformStart)]
             ++ [(INFO, Transformed (length (model_data df).2))])
     (trace w) (fails w)).
Proof.
  intros Hq. unfold transform_and_model_data. rewrite Hq. run_step.
  by rewrite <- app_assoc.
Qed.

Lemma transform_run_quarantine (df : DataFrame) (w : World) :
  df_quarantine df ≠ [] →
  fails w (WriteCsv QUARANTINE_FILE) = false →
  transform_and_model_data df w =
  (Return (model_data df),
   mkWorld (<[QUARANTINE_FILE := df_quarantine df]> (files w)) (store w)
     (logs w ++ [(INFO, TransformStart)]
             ++ [(WARNING, Quarantined (length (df_quarantine df)))]
             ++ [(INFO, Transformed (length (model_data df).2))])
     (trace w ++ [WriteCsv QUARANTINE_FILE]) (fails w)).
Proof.
  intros Hq Hf. unfold transform_and_model_data.
  destruct (df_quarantine df) as [|r q] eqn:Hdq; [done|]. run_step.
  rewrite Hf. run_step. by rewrite <- !app_assoc.
Qed.

Lemma transform_run_raise (df : DataFrame) (w : World) :
  df_quarantine df ≠ [] →
  fails w (WriteCsv QUARANTINE_FILE) = true →
  transform_and_model_data df w =
  (Raise (IOError (WriteCsv QUARANTINE_FILE)),
   mkWorld (files w) (store w) (logs w ++ [(INFO, TransformStart)])
     (trace w ++ [WriteCsv QUARANTINE_FILE]) (fails w)).
Proof.
  intros Hq Hf. unfold transform_and_model_data.
  destruct (df_quarantine df) as [|r q] eqn:Hdq; [done|]. run_step.
  by rewrite Hf.
Qed.

Lemma load_run_connect_fails dim fact (w : World) :
  fails w (Connect DB_NAME) = true →
  load_data dim fact w =
  (Return tt, loading_failed w [] [] (Connect DB_NAME) (store w)).
Proof.
  intros Hc. unfold load_data, loading_failed. run_step. rewrite Hc. run_step.
  by rewrite <- !app_assoc.
Qed.

Lemma load_run_dim_fails dim fact (w : World) :
  fails w (Connect DB_NAME) = false →
  fails w (ToSql "dim_product") = true →
  load_data dim fact w =
  (Return tt,
   loading_failed w [] [Connect DB_NAME] (ToSql "dim_product")
     (interrupted (fails w) (store w) "dim_product" (DimTable dim))).
Proof.
  intros Hc Hd. unfold load_data, loading_failed. run_step.
  rewrite Hc. run_step. run_step. rewrite Hd. run_step.
  by rewrite <- !app_assoc.
Qed.

Lemma load_run_fact_fails dim fact (w : World) :
  fails w (Connect DB_NAME) = false →
  fails w (ToSql "dim_product") = false →
  fails w (ToSql "fact_sales") = true →
  load_data dim fact w =
  (Return tt,
   loading_failed w [(INFO, LoadedDim)]
     [Connect DB_NAME; ToSql "dim_product"] (ToSql "fact_sales")
     (interrupted (fails w) (<["dim_product" := DimTable dim]> (store w))
        "fact_sales" (FactTable fact))).
Proof.
  intros Hc Hd Hf. unfold load_data, loading_failed. run_step.
  rewrite Hc. run_step. run_step. rewrite Hd. run_step.
  run_step. rewrite Hf. run_step.
  by rewrite <- !app_assoc.
Qed.

Lemma load_run_ok dim fact (w : World) :
  fails w (Connect DB_NAME) = false →
  fails w (ToSql "dim_product") = false →
  fails w (ToSql "fact_sales") = false →
  load_data dim fact w =
  (Return tt,
   mkWorld (files w)
     (<["fact_sales" := FactTable fact]>
        (<["dim_product" := DimTable dim]> (store w)))
     (logs w ++ [(INFO, LoadingStart); (INFO, LoadedDim); (INFO, LoadedFact);
                 (INFO, Completed)])
     (trace w ++ [Connect DB_NAME; ToSql "dim_product"; ToSql "fact_sales"])
     (fails w)).
Proof.
  intros Hc Hd Hf. unfold load_data. run_step.
  rewrite Hc. run_step. rewrite Hd. run_step. rewrite Hf. run_step.
  by rewrite <- !app_assoc.
Qed.


Lemma extract_run_fails (w : World) :
  fails w (ReadCsv RAW_FILE) = true ∨ files w !! RAW_FILE = None →
  extract_data w =
  (Return None,
   mkWorld (files w) (store w)
     (logs w ++ [(INFO, ExtractionStart);
                 (ERROR, ExtractionFailed (IOError (ReadCsv RAW_FILE)))])
     (trace w ++ [ReadCsv RAW_FILE]) (fails w)).
Proof.
  intros Hr. unfold extract_data. run_step.
  destruct (fails w (ReadCsv RAW_FILE)) eqn:Hf; run_step.
  - by rewrite <- !app_assoc.
  - destruct Hr as [?|Hr]; [done|]. rewrite Hr. run_step.
    by rewrite <- !app_assoc.
Qed.

Lemma extract_run_ok (w : World) df :
  fails w (ReadCsv RAW_FILE) = false → files w !! RAW_FILE = Some df →
  extract_data w =
  (Return (Some df),
   mkWorld (files w) (store w)
     (logs w ++ [(INFO, ExtractionStart); (INFO, Extracted (length df))])
     (trace w ++ [ReadCsv RAW_FILE]) (fails w)).
Proof.
  intros Hf Hr. unfold extract_data. run_step. rewrite Hf. run_step.
  rewrite Hr. run_step. by rewrite <- !app_assoc.
Qed.

Ltac int64_frame_tac :=
  unfold int64_frame;
  repeat (apply Forall_cons; split;
          [cbn; unfold int64_cell; split_and?;
           first [done | vm_compute; first [reflexivity | discriminate]]|]);
  by apply Forall_nil.

(** Counterexample to C5 as stated: price 2^62 and quantity 4 both fit in
    64 bits, the row is valid, its exact product is 2^64, and its fact row
    carries total_amount 0. *)
Lemma total_amount_wraps_around :
  int64_frame overflow_batch ∧
  df_clean overflow_batch = overflow_batch ∧
  map f_total_amount (model_data overflow_batch).2 = [Some 0] ∧
  map (λ r, (λ p, p * quantity r) <$> price r) overflow_batch = [Some (2 ^ 64)].
Proof. split; [int64_frame_tac|by vm_compute]. Qed.

Lemma total_amount_column_product_witness :
  (∃ f, (model_data raw_data).2 !! 1%nat = Some f ∧
        f_total_amount f = Some 50) ∧
  (∃ f, (model_data missing_price_batch).2 !! 1%nat = Some f ∧
        f_total_amount f = Some 14).
Proof.
  split.
  - destruct (total_amount_column_product raw_data 1
                (mkRaw 102 (Some "Bob") "Mouse" "Accessories" (Some 25) 2 "2023-10-01"))
      as (f & Hf & _ & _ & Hint & _); [int64_frame_tac|reflexivity|].
    exists f. split; [exact Hf|].
    apply (Hint 25); [reflexivity| |vm_compute; split; congruence].
    unfold raw_data. repeat (apply Forall_cons; split; [by eexists|]).
    by apply Forall_nil.
  - destruct (total_amount_column_product missing_price_batch 1
                (mkRaw 202 (Some "Heidi") "Cable" "Accessories" (Some 7) 2 "2023-10-03"))
      as (f & Hf & _ & _ & _ & Hfloat & _); [int64_frame_tac|reflexivity|].
    exists f. split; [exact Hf|].
    apply (Hfloat 7); [reflexivity| |reflexivity|vm_compute; congruence].
    eexists. split; [left|reflexivity].
Defined.

(** C10: a record with a missing price and a name is valid: it is in the
    clean batch and not in quarantine, its tuple has a dimension row, and
    it has a fact row that carries that row's [product_id]. *)
Theorem missing_price_is_valid (df : DataFrame) (r : RawRow) :
  r ∈ df → price r = None → customer_name r ≠ None →
  ¬ invalid r ∧ r ∈ df_clean df ∧ (r ∉ df_quarantine df) ∧
  ∃ d f, d ∈ (model_data df).1 ∧ dim_key d = key_of r ∧
         f ∈ (model_data df).2 ∧
         f_order_id f = order_id r ∧ f_customer_name f = customer_name r ∧
         f_product_id f = Some (product_id d) ∧ f_total_amount f = None.
Proof.
  intros Hr Hp Hn.
  assert (¬ invalid r) as Hv.
  { intros [?|Hle]; [done|]. unfold price_le_zero in Hle. by rewrite Hp in Hle. }
  assert (r ∈ df_clean df) as Hc.
  { rewrite df_clean_filter. by apply list_elem_of_filter. }
  split_and!; [done..| |].
  - rewrite df_quarantine_filter, list_elem_of_filter. tauto.
  - apply list_elem_of_lookup_1 in Hc as [i Hi].
    destruct (model_data_lookup df i r Hi) as (d & Hd & Hk & Hf).
    eexists d, _. split_and!; [done|done| |..].
    + eapply list_elem_of_lookup_2, Hf.
    + done.
    + done.
    + done.
    + cbn. by rewrite Hp.
Qed.

Lemma missing_price_is_valid_witness :
  ∃ d f, d ∈ (model_data missing_price_batch).1 ∧
         f ∈ (model_data missing_price_batch).2 ∧
         f_order_id f = 201 ∧ f_product_id f = Some (product_id d) ∧
         f_total_amount f = None.
Proof.
  destruct (missing_price_is_valid missing_price_batch
              (mkRaw 201 (Some "Grace") "Cable" "Accessories" None 3 "2023-10-03"))
    as (_ & _ & _ & d & f & Hd & _ & Hf & Ho & _ & Hp & Ht).
  - left.
  - reflexivity.
  - discriminate.
  - exists d, f. split_and!; assumption.
Defined.

(** C9: the partition copies rows and never changes them: both outputs are
    sub-sequences of the input, every row of an output is, field for field,
    a row of the input, adding the [total_amount] column leaves the fields
    of the valid rows as they were, and the quarantine file receives the
    invalid rows as they are. *)
Theorem partition_never_mutates (df : DataFrame) :
  sublist (df_quarantine df) df ∧ sublist (df_clean df) df ∧
  (∀ i r, df_quarantine df !! i = Some r → ∃ j, df !! j = Some r) ∧
  (∀ i r, df_clean df !! i = Some r → ∃ j, df !! j = Some r) ∧
  (∀ dt, map row (add_total_amount dt (df_clean df)) = df_clean df) ∧
  (∀ w, df_quarantine df ≠ [] → fails w (WriteCsv QUARANTINE_FILE) = false →
        files (transform_and_model_data df w).2 !! QUARANTINE_FILE =
        Some (df_quarantine df)).
Proof.
  assert (sublist (df_clean df) df ∧ sublist (df_quarantine df) df) as [Hc Hq].
  { apply Interleave_sublist. rewrite df_clean_filter, df_quarantine_filter.
    apply filter_Interleave. }
  split_and!; try done.
  - intros i r Hi. apply list_elem_of_lookup_1.
    eapply elem_of_sublist; [|exact Hq]. by eapply list_elem_of_lookup_2.
  - intros i r Hi. apply list_elem_of_lookup_1.
    eapply elem_of_sublist; [|exact Hc]. by eapply list_elem_of_lookup_2.
  - intros dt. apply row_add_total_amount.
  - intros w Hne Hf. rewrite transform_run_quarantine by done.
    cbn [snd files]. apply lookup_insert_eq.
Qed.

Lemma partition_never_mutates_witness :
  files (transform_and_model_data raw_data fresh_world).2 !! QUARANTINE_FILE =
  Some [ mkRaw 103 (Some "Charlie") "Keyboard" "Accessories" (Some (-50)) 1 "2023-10-01";
         mkRaw 105 None "Mouse" "Accessories" (Some 25) 5 "2023-10-02" ].
Proof.
  destruct (partition_never_mutates raw_data) as (_ & _ & _ & _ & _ & Hw).
  apply (Hw fresh_world); [discriminate|reflexivity].
Defined.

Lemma generate_run_ok (w : World) :
  fails w (WriteCsv RAW_FILE) = false →
  generate_dummy_data w =
  (Return tt,
   mkWorld (<[RAW_FILE := raw_data]> (files w)) (store w)
     (logs w ++ [(INFO, GeneratedDummy)]) (trace w ++ [WriteCsv RAW_FILE])
     (fails w)).
Proof. intros Hf. unfold generate_dummy_data. run_step. by rewrite Hf. Qed.

(** C7: when the source file cannot be read, the run stops after the
    extraction: no transform step is logged, no sink operation is
    attempted, and the quarantine file and the store are as they were.
    This holds for lines 107-111 alone and for the whole main block, where
    the only file written is the source file itself. *)
Theorem source_unreadable_aborts (w : World) :
  (fails w (ReadCsv RAW_FILE) = true ∨ files w !! RAW_FILE = None →
   ∃ w', run_pipeline w = (Return tt, w') ∧
         files w' = files w ∧ store w' = store w ∧
         trace w' = trace w ++ [ReadCsv RAW_FILE] ∧
         logs w' = logs w ++ [(INFO, ExtractionStart);
                              (ERROR, ExtractionFailed (IOError (ReadCsv RAW_FILE)))]) ∧
  (fails w (ReadCsv RAW_FILE) = true → fails w (WriteCsv RAW_FILE) = false →
   ∃ w', main w = (Return tt, w') ∧
         files w' = <[RAW_FILE := raw_data]> (files w) ∧ store w' = store w ∧
         trace w' = trace w ++ [WriteCsv RAW_FILE; ReadCsv RAW_FILE] ∧
         logs w' = logs w ++ [(INFO, GeneratedDummy); (INFO, ExtractionStart);
                              (ERROR, ExtractionFailed (IOError (ReadCsv RAW_FILE)))]).
Proof.
  split.
  - intros Hr. eexists. split.
    + unfold run_pipeline, bind at 1. rewrite (extract_run_fails w Hr). reflexivity.
    + done.
  - intros Hr Hw. eexists. split.
    + unfold main, bind at 1. rewrite (generate_run_ok w Hw).
      unfold run_pipeline, bind at 1. rewrite extract_run_fails by (by left).
      reflexivity.
    + cbn. by rewrite <- !app_assoc.
Qed.

Lemma source_unreadable_aborts_witness :
  (∃ w', run_pipeline fresh_world = (Return tt, w') ∧
         files w' = ∅ ∧ store w' = ∅ ∧ trace w' = [ReadCsv RAW_FILE]) ∧
  (∃ w', main source_down = (Return tt, w') ∧
         files w' !! QUARANTINE_FILE = None ∧ store w' = ∅ ∧
         trace w' = [WriteCsv RAW_FILE; ReadCsv RAW_FILE]).
Proof.
  split.
  - destruct (source_unreadable_aborts fresh_world) as [Hrun _].
    destruct Hrun as (w' & Hrun & Hf & Hs & Ht & _).
    + right. reflexivity.
    + exists w'. split_and!; assumption.
  - destruct (source_unreadable_aborts source_down) as [_ Hmain].
    destruct Hmain as (w' & Hrun & Hf & Hs & Ht & _).
    + reflexivity.
    + reflexivity.
    + exists w'. split_and!; [assumption| |assumption..].
      rewrite Hf. reflexivity.
Defined.

Lemma lookup_interrupted (fl : IOOp → bool) (s : gmap string Table) name t :
  (∀ n, n ≠ name → interrupted fl s name t !! n = s !! n) ∧
  (interrupted fl s name t !! name = s !! name ∨
   interrupted fl s name t !! name = None ∨
   interrupted fl s name t !! name = Some (empty_like t)).
Proof.
  unfold interrupted. destruct (fl (DropTable name)); [by split; [|left]|].
  destruct (fl (CreateTable name)).
  - split; [intros n Hn; by rewrite lookup_delete_ne|].
    right. left. apply lookup_delete_eq.
  - split; [intros n Hn; by rewrite lookup_insert_ne|].
    right. right. apply lookup_insert_eq.
Qed.




(** The three-row example: one valid row, a negative price and a missing
    name. *)
Example three_row_batch :
  let df := [ mkRaw 101 (Some "Alice") "Laptop" "Electronics" (Some 1200) 1 "2023-10-01";
              mkRaw 103 (Some "Charlie") "Keyboard" "Accessories" (Some (-50)) 1 "2023-10-01";
              mkRaw 105 None "Mouse" "Accessories" (Some 25) 5 "2023-10-02" ] in
  map order_id (df_clean df) = [101] ∧
  map order_id (df_quarantine df) = [103; 105] ∧
  model_data df =
    ([ mkDim "Laptop" "Electronics" (Some 1200) 1 ],
     [ mkFact 101 "2023-10-01" (Some "Alice") (Some 1) 1 (Some 1200) ]).
Proof. by vm_compute. Qed.

(** The run of the script on its own dummy data, when nothing fails. *)
Example main_fresh_world :
  (main fresh_world).1 = Return tt ∧
  store (main fresh_world).2 !! "dim_product" =
    Some (DimTable [ mkDim "Laptop" "Electronics" (Some 1200) 1;
                     mkDim "Mouse" "Accessories" (Some 25) 2;
                     mkDim "Monitor" "Electronics" (Some 300) 3 ]) ∧
  store (main fresh_world).2 !! "fact_sales" =
    Some (FactTable
      [ mkFact 101 "2023-10-01" (Some "Alice") (Some 1) 1 (Some 1200);
        mkFact 102 "2023-10-01" (Some "Bob") (Some 2) 2 (Some 50);
        mkFact 104 "2023-10-02" (Some "David") (Some 3) 2 (Some 600);
        mkFact 106 "2023-10-02" (Some "Frank") (Some 1) 1 (Some 1200) ]) ∧
  files (main fresh_world).2 !! QUARANTINE_FILE =
    Some [ mkRaw 103 (Some "Charlie") "Keyboard" "Accessories" (Some (-50)) 1 "2023-10-01";
           mkRaw 105 None "Mouse" "Accessories" (Some 25) 5 "2023-10-02" ].
Proof. by vm_compute. Qed.

(** ** Extraction *)

(** X1: [extract_data] never raises.  It attempts the one read, changes
    neither a file nor the store, returns [None] exactly when the read
    fails or the file is missing, and otherwise returns the content of the
    source file and logs its row count. *)
Theorem extract_data_total (w : World) :
  ∃ r w', extract_data w = (Return r, w') ∧
          files w' = files w ∧ store w' = store w ∧
          trace w' = trace w ++ [ReadCsv RAW_FILE] ∧
          (r = None ↔
           fails w (ReadCsv RAW_FILE) = true ∨ files w !! RAW_FILE = None) ∧
          (∀ df, r = Some df →
                 files w !! RAW_FILE = Some df ∧
                 last (logs w') = Some (INFO, Extracted (length df))).
Proof.
  destruct (fails w (ReadCsv RAW_FILE)) eqn:Hf.
  { eexists _, _. split; [apply extract_run_fails; by left|].
    cbn. split_and!; try done. split; [by left|done]. }
  destruct (files w !! RAW_FILE) as [df|] eqn:Hdf.
  - eexists _, _. split; [by apply extract_run_ok|].
    cbn. split_and!; try done.
    + split; [done|]. by intros [?|?].
    + intros df' [= <-]. split; [done|].
      by rewrite last_app.
  - eexists _, _. split; [apply extract_run_fails; by right|].
    cbn. split_and!; try done. split; [by right|done].
Qed.

(** ** More on [drop_duplicates] and the dimension *)

Lemma select_sublist {A} (l : list A) (mask : list bool) :
  sublist (select l mask) l.
Proof.
  revert mask. induction l as [|x l IH]; intros [|[] mask]; cbn;
    try constructor; try apply IH; apply sublist_nil_l.
Qed.

Lemma length_drop_seen (seen l : list Key) :
  (length (drop_seen seen l) ≤ length l)%nat.
Proof. apply sublist_length, select_sublist. Qed.

Lemma drop_seen_fixed (seen l : list Key) :
  NoDup l → (∀ x, x ∈ l → x ∉ seen) → drop_seen seen l = l.
Proof.
  revert seen. induction l as [|k l IH]; intros seen Hnd Hseen; [done|].
  apply NoDup_cons in Hnd as [Hk Hnd].
  rewrite drop_seen_cons_notin by (apply Hseen; left). f_equal.
  apply IH; [done|]. intros x Hx. rewrite elem_of_cons. intros [->|Hin]; [done|].
  by apply (Hseen x); [right|].
Qed.

Lemma drop_seen_length_eq (seen l : list Key) :
  length (drop_seen seen l) = length l →
  NoDup l ∧ ∀ x, x ∈ l → x ∉ seen.
Proof.
  revert seen. induction l as [|k l IH]; intros seen Hlen.
  - split; [constructor|]. intros x. by rewrite elem_of_nil.
  - destruct (decide (k ∈ seen)) as [Hk|Hk].
    + rewrite drop_seen_cons_in in Hlen by done.
      pose proof (length_drop_seen seen l). cbn in Hlen. lia.
    + rewrite drop_seen_cons_notin in Hlen by done. cbn in Hlen.
      destruct (IH (k :: seen)) as [Hnd Hseen]; [lia|]. split.
      * constructor; [|done]. intros Hin. apply (Hseen k Hin). left.
      * intros x. rewrite elem_of_cons. intros [->|Hx]; [done|].
        intros Hin. apply (Hseen x Hx). by right.
Qed.

(** A kept row stands no later than where its tuple occurs first. *)
Lemma drop_seen_position (seen l : list Key) j k :
  drop_seen seen l !! j = Some k →
  ∃ a, first_occurrence k l a ∧ (j ≤ a)%nat.
Proof.
  revert seen j. induction l as [|x l IH]; intros seen j Hj.
  - by unfold drop_seen in Hj.
  - destruct (decide (x ∈ seen)) as [Hx|Hx].
    + rewrite drop_seen_cons_in in Hj by done.
      destruct (IH seen j Hj) as (a & Ha & Hle).
      assert (k ∉ seen) by
        (eapply proj2, elem_of_drop_seen, list_elem_of_lookup_2; eauto).
      exists (S a). split; [|lia].
      apply first_occurrence_later; [congruence|done].
    + rewrite drop_seen_cons_notin in Hj by done. destruct j as [|j].
      * injection Hj as <-. exists 0%nat. split; [apply first_occurrence_here|lia].
      * cbn in Hj. destruct (IH (x :: seen) j Hj) as (a & Ha & Hle).
        assert (k ≠ x).
        { apply list_elem_of_lookup_2, elem_of_drop_seen in Hj as [? Hn].
          rewrite elem_of_cons in Hn. tauto. }
        exists (S a). split; [|lia]. by apply first_occurrence_later.
Qed.

Lemma first_occurrence_le {A} (k : A) l a i :
  first_occurrence k l a → l !! i = Some k → (a ≤ i)%nat.
Proof.
  intros [_ Hfirst] Hi. destruct (Nat.le_gt_cases a i) as [|Hlt]; [done|].
  by destruct (Hfirst i Hlt).
Qed.

(** X15: [drop_duplicates] only removes rows (the result is a sub-sequence
    of the input), leaves exactly the duplicate-free inputs unchanged, and
    applying it twice is the same as applying it once. *)
Theorem drop_duplicates_idempotent (rows : list Key) :
  sublist (drop_duplicates rows) rows ∧
  (drop_duplicates rows = rows ↔ NoDup rows) ∧
  drop_duplicates (drop_duplicates rows) = drop_duplicates rows.
Proof.
  change (drop_duplicates ?l) with (drop_seen [] l). split_and!.
  - apply select_sublist.
  - split.
    + intros Heq. rewrite <- Heq. apply NoDup_drop_seen.
    + intros Hnd. apply drop_seen_fixed; [done|]. intros x _. apply not_elem_of_nil.
  - apply drop_seen_fixed; [apply NoDup_drop_seen|].
    intros x _. apply not_elem_of_nil.
Qed.

Lemma length_build_dim_product (clean : list CleanRow) :
  (length (build_dim_product clean) ≤ length clean)%nat ∧
  (length (build_dim_product clean) = length clean ↔
   NoDup (project_key clean)).
Proof.
  unfold build_dim_product. rewrite length_assign_product_id.
  change (drop_duplicates ?l) with (drop_seen [] l).
  assert (length (project_key clean) = length clean) as Hlen
    by apply length_map.
  split.
  - rewrite <- Hlen. apply length_drop_seen.
  - rewrite <- Hlen. split.
    + intros Heq. by apply drop_seen_length_eq in Heq as [? _].
    + intros Hnd. rewrite drop_seen_fixed; [done..|].
      intros x _. apply not_elem_of_nil.
Qed.

(** X10: the dimension never has more rows than the valid batch, and has
    as many exactly when no two valid rows (at different indices) have the
    same product, the same category and the same price. *)
Theorem dimension_length (clean : list CleanRow) :
  (length (build_dim_product clean) ≤ length clean)%nat ∧
  (length (build_dim_product clean) = length clean ↔
   ∀ i j ci cj, clean !! i = Some ci → clean !! j = Some cj →
                product (row ci) = product (row cj) →
                category (row ci) = category (row cj) →
                price (row ci) = price (row cj) → i = j).
Proof.
  destruct (length_build_dim_product clean) as [Hle Heq].
  split; [done|]. rewrite Heq, NoDup_alt. unfold project_key.
  change (map ?f ?l) with (f <$> l). split.
  - intros Hinj i j ci cj Hi Hj Hp Hc Hpr.
    apply (Hinj i j (key_of (row ci))); rewrite list_lookup_fmap.
    + by rewrite Hi.
    + rewrite Hj. cbn. unfold key_of. by rewrite Hp, Hc, Hpr.
  - intros Hinj i j k. rewrite !list_lookup_fmap.
    destruct (clean !! i) as [ci|] eqn:Hi; [|done].
    destruct (clean !! j) as [cj|] eqn:Hj; [|done].
    cbn. unfold key_of. intros [= <-] [= Hp Hc Hpr].
    by apply (Hinj i j ci cj).
Qed.

(** ** More on the join *)

(** The fact row of the valid row at index [i], with the index [j] of its
    dimension row. *)
Lemma fact_lookup_dim_index (clean : list CleanRow) i c :
  clean !! i = Some c →
  ∃ j d, (j ≤ i)%nat ∧ build_dim_product clean !! j = Some d ∧
         dim_key d = key_of (row c) ∧ product_id d = Z.of_nat j + 1 ∧
         merge_left clean (build_dim_product clean) !! i =
         Some (fact_of c (Some (Z.of_nat j + 1))).
Proof.
  intros Hi.
  destruct (merge_build_lookup clean i c Hi) as (d & Hd & Hk & _ & Hf).
  apply list_elem_of_lookup_1 in Hd as [j Hj].
  assert (product_id d = Z.of_nat j + 1 ∧
          drop_seen [] (project_key clean) !! j = Some (dim_key d)) as [Hpid Hkeys].
  { unfold build_dim_product in Hj. rewrite lookup_assign_product_id in Hj.
    change (drop_duplicates ?l) with (drop_seen [] l) in Hj.
    destruct (drop_seen [] (project_key clean) !! j) as [[[p c'] z]|]; [|done].
    injection Hj as <-. done. }
  destruct (drop_seen_position _ _ _ _ Hkeys) as (a & Ha & Hja).
  assert (project_key clean !! i = Some (dim_key d)) as Hki.
  { unfold project_key. change (map ?f ?l) with (f <$> l).
    by rewrite list_lookup_fmap, Hi, Hk. }
  pose proof (first_occurrence_le _ _ _ _ Ha Hki).
  exists j, d. split_and!; [lia|done..|]. by rewrite Hf, Hpid.
Qed.

Lemma merge_build_lookup_inv (clean : list CleanRow) i f :
  merge_left clean (build_dim_product clean) !! i = Some f →
  ∃ c, clean !! i = Some c.
Proof.
  rewrite merge_build_map. change (map ?g ?l) with (g <$> l).
  rewrite list_lookup_fmap. destruct (clean !! i); [eauto|done].
Qed.

(** X11: two fact rows carry the same [product_id] exactly when their
    source rows have the same product, the same category and the same
    price. *)
Theorem product_id_identifies_key (clean : list CleanRow) i j ci cj fi fj :
  clean !! i = Some ci → clean !! j = Some cj →
  merge_left clean (build_dim_product clean) !! i = Some fi →
  merge_left clean (build_dim_product clean) !! j = Some fj →
  (f_product_id fi = f_product_id fj ↔
   product (row ci) = product (row cj) ∧
   category (row ci) = category (row cj) ∧
   price (row ci) = price (row cj)).
Proof.
  intros Hi Hj Hfi Hfj.
  destruct (merge_build_lookup clean i ci Hi) as (di & Hdi & Hki & _ & Hfi').
  destruct (merge_build_lookup clean j cj Hj) as (dj & Hdj & Hkj & _ & Hfj').
  rewrite Hfi in Hfi'. rewrite Hfj in Hfj'.
  injection Hfi' as ->. injection Hfj' as ->. cbn. split.
  - intros [= Hpid].
    assert (di = dj) as <-.
    { eapply (NoDup_map_inj product_id); [apply NoDup_product_id|done..]. }
    unfold key_of in Hki, Hkj. split_and!; congruence.
  - intros (Hp & Hc & Hpr).
    assert (di = dj) as <-; [|done].
    eapply (NoDup_map_inj dim_key); [apply dimension_keys_aux|done..|].
    rewrite Hki, Hkj. unfold key_of. by rewrite Hp, Hc, Hpr.
Qed.

Lemma product_id_identifies_key_witness :
  f_product_id (mkFact 301 "2023-10-04" (Some "Ivan") (Some 1) 1 (Some 150)) =
  f_product_id (mkFact 303 "2023-10-05" (Some "Mallory") (Some 1) 2 (Some 300)) ↔
  "Desk" = "Desk" ∧ "Furniture" = "Furniture" ∧ Some 150 = Some 150.
Proof.
  apply (product_id_identifies_key (add_total_amount int64 all_valid_batch) 0 2
           (mkClean (mkRaw 301 (Some "Ivan") "Desk" "Furniture" (Some 150) 1 "2023-10-04") (Some 150))
           (mkClean (mkRaw 303 (Some "Mallory") "Desk" "Furniture" (Some 150) 2 "2023-10-05") (Some 300)));
    reflexivity.
Defined.

(** X12: the surrogate key decodes: the [product_id] of the fact row at
    index [i] is present and at least 1, and the dimension row at index
    [product_id - 1] has the (product, category, price) tuple of the valid
    row at index [i]. *)
Theorem product_id_round_trip (clean : list CleanRow) i c f :
  clean !! i = Some c →
  merge_left clean (build_dim_product clean) !! i = Some f →
  ∃ pid d, f_product_id f = Some pid ∧ 1 ≤ pid ∧
           build_dim_product clean !! Z.to_nat (pid - 1) = Some d ∧
           product_id d = pid ∧
           (d_product d, d_category d, d_price d) =
           (product (row c), category (row c), price (row c)).
Proof.
  intros Hi Hf.
  destruct (fact_lookup_dim_index clean i c Hi) as (j & d & _ & Hj & Hk & Hpid & Hf').
  rewrite Hf in Hf'. injection Hf' as ->.
  exists (Z.of_nat j + 1), d. cbn. split_and!; [done|lia| |done|exact Hk].
  by replace (Z.to_nat (Z.of_nat j + 1 - 1)) with j by lia.
Qed.

Lemma product_id_round_trip_witness :
  ∃ d, build_dim_product (add_total_amount int64 all_valid_batch) !! 1%nat = Some d ∧
       (d_product d, d_category d, d_price d) = ("Lamp", "Furniture", Some 40).
Proof.
  destruct (product_id_round_trip (add_total_amount int64 all_valid_batch) 1
              (mkClean (mkRaw 302 (Some "Judy") "Lamp" "Furniture" (Some 40) 3 "2023-10-04") (Some 120))
              (mkFact 302 "2023-10-04" (Some "Judy") (Some 2) 3 (Some 120)))
    as (pid & d & Hpid & _ & Hd & _ & Hk); [reflexivity..|].
  injection Hpid as <-. exists d. split; [exact Hd|exact Hk].
Defined.

(** X16: ids are handed out in the order of first appearance, so the fact
    row at index [i] has a [product_id] between 1 and [i + 1]; the first
    fact row always has [product_id] 1. *)
Theorem product_id_bounded_by_position (clean : list CleanRow) i f :
  merge_left clean (build_dim_product clean) !! i = Some f →
  ∃ pid, f_product_id f = Some pid ∧ 1 ≤ pid ≤ Z.of_nat i + 1.
Proof.
  intros Hf. destruct (merge_build_lookup_inv clean i f Hf) as [c Hi].
  destruct (fact_lookup_dim_index clean i c Hi) as (j & d & Hji & _ & _ & _ & Hf').
  rewrite Hf in Hf'. injection Hf' as ->.
  exists (Z.of_nat j + 1). cbn. split; [done|lia].
Qed.

Lemma product_id_bounded_by_position_witness :
  ∃ pid, f_product_id (mkFact 301 "2023-10-04" (Some "Ivan") (Some 1) 1 (Some 150))
         = Some pid ∧ 1 ≤ pid ≤ Z.of_nat 0 + 1.
Proof.
  apply (product_id_bounded_by_position (add_total_amount int64 all_valid_batch) 0).
  reflexivity.
Defined.

(** X13: what the transform returns is clean: every dimension price is
    positive or missing, every fact row has a customer name and a
    [product_id], and when no price of the input is missing every fact row
    has a [total_amount]. *)
Theorem model_data_invariants (df : DataFrame) :
  Forall (λ d, positive_or_missing (d_price d)) (model_data df).1 ∧
  Forall (λ f, is_Some (f_customer_name f) ∧ is_Some (f_product_id f))
         (model_data df).2 ∧
  (Forall (λ r, is_Some (price r)) df →
   Forall (λ f, is_Some (f_total_amount f)) (model_data df).2).
Proof.
  assert (∀ f, f ∈ (model_data df).2 →
            ∃ r d, r ∈ df ∧ ¬ invalid r ∧
                   f = mkFact (order_id r) (transaction_date r) (customer_name r)
                         (Some (product_id d)) (quantity r)
                         (mul_cell (price_dtype df) (price r) (quantity r)))
    as Hfact.
  { intros f Hf. apply list_elem_of_lookup_1 in Hf as [i Hi].
    destruct (merge_build_lookup_inv _ i f Hi) as [c Hc].
    rewrite add_total_amount_map in Hc. change (map ?g ?l) with (g <$> l) in Hc.
    rewrite list_lookup_fmap in Hc.
    destruct (df_clean df !! i) as [r|] eqn:Hr; [|done].
    destruct (model_data_lookup df i r Hr) as (d & _ & _ & Hf).
    destruct (df_clean_valid df i r Hr) as [Hin Hv].
    exists r, d. split_and!; [done..|]. congruence. }
  split_and!.
  - apply Forall_forall. intros d Hd. unfold model_data in Hd. cbn in Hd.
    assert (dim_key d ∈ project_key
              (add_total_amount (price_dtype df) (df_clean df))) as Hk.
    { apply dimension_keys_aux. change (map ?g ?l) with (g <$> l).
      by apply list_elem_of_fmap_2. }
    unfold project_key in Hk. rewrite add_total_amount_map, map_map in Hk.
    change (map ?g ?l) with (g <$> l) in Hk.
    apply list_elem_of_fmap in Hk as (r & Hkr & Hr). cbn in Hkr.
    apply list_elem_of_lookup_1 in Hr as [i Hi].
    destruct (df_clean_valid df i r Hi) as [_ Hv].
    assert (d_price d = price r) as ->
      by (unfold dim_key, key_of in Hkr; cbn in Hkr; congruence).
    unfold positive_or_missing.
    destruct (price r) as [p|] eqn:Hp; [|done].
    destruct (Z.lt_ge_cases 0 p) as [|Hle]; [done|].
    destruct Hv. right. unfold price_le_zero. rewrite Hp. lia.
  - apply Forall_forall. intros f Hf.
    destruct (Hfact f Hf) as (r & d & _ & Hv & ->). cbn. split; [|done].
    destruct (customer_name r) eqn:Hn; [done|]. destruct Hv. by left.
  - intros Hprice. apply Forall_forall. intros f Hf.
    destruct (Hfact f Hf) as (r & d & Hr & _ & ->). cbn.
    rewrite Forall_forall in Hprice. destruct (Hprice r Hr) as [p ->]. done.
Qed.

(** ** The left join against any dimension *)

Lemma length_matches_NoDup (c : CleanRow) (dim : list DimRow) :
  NoDup (map dim_key dim) → (length (matches c dim) ≤ 1)%nat.
Proof.
  intros Hnd. unfold matches.
  destruct (filter (λ d, dim_key d = key_of (row c)) dim) as [|d ds] eqn:Hm;
    [cbn; lia|].
  assert (d ∈ dim ∧ dim_key d = key_of (row c)) as [Hd Hk].
  { assert (d ∈ filter (λ d, dim_key d = key_of (row c)) dim) as Hin
      by (rewrite Hm; left).
    apply list_elem_of_filter in Hin. tauto. }
  rewrite <- Hk, (filter_unique dim_key dim d Hnd Hd) in Hm.
  injection Hm as <-. cbn. lia.
Qed.

Lemma merge_left_rows (clean : list CleanRow) (dim : list DimRow) :
  (length clean ≤ length (merge_left clean dim))%nat ∧
  (∀ c, c ∈ clean → matches c dim = [] →
        fact_of c None ∈ merge_left clean dim) ∧
  merge_left clean [] = map (λ c, fact_of c None) clean ∧
  (NoDup (map dim_key dim) →
   merge_left clean dim =
   map (λ c, fact_of c (product_id <$> head (matches c dim))) clean).
Proof.
  unfold merge_left. split_and!.
  - induction clean as [|c l IH]; [done|]. cbn [flat_map].
    rewrite length_app. destruct (matches c dim); cbn in *; lia.
  - intros c Hc Hm. apply list_elem_of_In, in_flat_map.
    exists c. split; [by apply list_elem_of_In|]. rewrite Hm. by left.
  - induction clean as [|c l IH]; [done|]. cbn [flat_map]. by rewrite IH.
  - intros Hnd. induction clean as [|c l IH]; [done|].
    cbn [flat_map]. rewrite IH.
    pose proof (length_matches_NoDup c dim Hnd) as Hlen.
    destruct (matches c dim) as [|d [|d' ds]] eqn:Hm; cbn in Hlen; [| |lia].
    + cbn. by rewrite Hm.
    + cbn. by rewrite Hm.
Qed.

Lemma matches_none (c : CleanRow) (dim : list DimRow) :
  (∀ d, d ∈ dim → ¬ (d_product d = product (row c) ∧
                     d_category d = category (row c) ∧
                     d_price d = price (row c))) →
  matches c dim = [].
Proof.
  intros Hno. unfold matches. apply filter_none. intros d Hd Hk.
  apply (Hno d Hd). unfold dim_key, key_of in Hk. split_and!; congruence.
Qed.

(** X17: the left join never drops a row of the left batch, whatever the
    dimension.  A row whose product, category and price are those of no
    dimension row stays, with its own fields and a missing [product_id];
    against an empty dimension every row stays so.  Against a dimension
    whose rows differ pairwise in their (product, category, price) there is
    exactly one output row per left row, at the same index and with the
    left row's fields, carrying the [product_id] of the dimension row with
    its tuple, or a missing one when there is none. *)
Theorem merge_left_general (clean : list CleanRow) (dim : list DimRow) :
  (length clean ≤ length (merge_left clean dim))%nat ∧
  (∀ c, c ∈ clean →
     (∀ d, d ∈ dim → ¬ (d_product d = product (row c) ∧
                        d_category d = category (row c) ∧
                        d_price d = price (row c))) →
     ∃ f, f ∈ merge_left clean dim ∧
          f_order_id f = order_id (row c) ∧
          f_transaction_date f = transaction_date (row c) ∧
          f_customer_name f = customer_name (row c) ∧
          f_quantity f = quantity (row c) ∧
          f_total_amount f = total_amount c ∧
          f_product_id f = None) ∧
  (map f_order_id (merge_left clean []) = map (λ c, order_id (row c)) clean ∧
   Forall (λ f, f_product_id f = None) (merge_left clean [])) ∧
  (NoDup (map (λ d, (d_product d, d_category d, d_price d)) dim) →
   length (merge_left clean dim) = length clean ∧
   ∀ i c, clean !! i = Some c →
     ∃ f, merge_left clean dim !! i = Some f ∧
          f_order_id f = order_id (row c) ∧
          f_transaction_date f = transaction_date (row c) ∧
          f_customer_name f = customer_name (row c) ∧
          f_quantity f = quantity (row c) ∧
          f_total_amount f = total_amount c ∧
          (∀ d, d ∈ dim → d_product d = product (row c) →
                d_category d = category (row c) →
                d_price d = price (row c) →
                f_product_id f = Some (product_id d)) ∧
          ((∀ d, d ∈ dim → ¬ (d_product d = product (row c) ∧
                              d_category d = category (row c) ∧
                              d_price d = price (row c))) →
           f_product_id f = None)).
Proof.
  destruct (merge_left_rows clean dim) as (Hlen & Hmiss & _ & Hmap).
  destruct (merge_left_rows clean []) as (_ & _ & Hempty & _).
  split; [|split; [|split]].
  - done.
  - intros c Hc Hno. exists (fact_of c None).
    split; [apply Hmiss; [done|by apply matches_none]|done].
  - rewrite Hempty, map_map. split; [done|].
    apply Forall_forall. intros f Hf. change (map ?g ?l) with (g <$> l) in Hf.
    by apply list_elem_of_fmap in Hf as (c & -> & _).
  - intros Hnd. change (map _ dim) with (map dim_key dim) in Hnd.
    rewrite (Hmap Hnd). split; [apply length_map|].
    intros i c Hi. eexists. split.
    { change (map ?g ?l) with (g <$> l). by rewrite list_lookup_fmap, Hi. }
    cbn. split_and!; try done.
    + intros d Hd Hp Hc Hpr.
      assert (dim_key d = key_of (row c)) as Hk
        by (unfold dim_key, key_of; by rewrite Hp, Hc, Hpr).
      unfold matches. rewrite <- Hk. by rewrite (filter_unique dim_key dim d).
    + intros Hno. by rewrite matches_none.
Qed.

Lemma merge_left_general_witness :
  ∃ f, merge_left (add_total_amount int64 all_valid_batch) foreign_dim !! 1%nat
       = Some f ∧
       f_order_id f = 302 ∧ f_product_id f = None.
Proof.
  destruct (merge_left_general (add_total_amount int64 all_valid_batch) foreign_dim)
    as (_ & _ & _ & Hrows).
  destruct Hrows as [_ Hrows]; [by apply NoDup_singleton|].
  destruct (Hrows 1%nat
              (mkClean (mkRaw 302 (Some "Judy") "Lamp" "Furniture" (Some 40) 3 "2023-10-04") (Some 120)))
    as (f & Hf & Ho & _ & _ & _ & _ & _ & Hnone); [reflexivity|].
  exists f. split_and!; [exact Hf|exact Ho|]. apply Hnone.
  intros d Hd (Hp & _). apply list_elem_of_singleton in Hd. subst d. discriminate Hp.
Defined.

(** ** What the transform writes *)

Lemma all_valid_partition (df : DataFrame) :
  Forall (λ r, ¬ invalid r) df → df_quarantine df = [] ∧ df_clean df = df.
Proof.
  rewrite Forall_forall. intros Hv. rewrite df_quarantine_filter, df_clean_filter.
  split.
  - apply filter_none. intros r Hr Hinv. by apply (Hv r).
  - induction df as [|r df IH]; [done|].
    rewrite filter_cons_True by (apply Hv; left). f_equal.
    apply IH. intros x Hx. apply Hv. by right.
Qed.

Lemma length_model_data (df : DataFrame) :
  length (model_data df).2 = length (df_clean df) ∧
  (length (model_data df).1 ≤ length (model_data df).2)%nat.
Proof.
  unfold model_data. cbn [fst snd].
  set (clean := add_total_amount (price_dtype df) (df_clean df)).
  assert (length clean = length (df_clean df)) as Hc
    by (subst clean; rewrite add_total_amount_map; apply length_map).
  assert (length (merge_left clean (build_dim_product clean)) = length clean)
    as Hf by (rewrite merge_build_map; apply length_map).
  split; [congruence|]. rewrite Hf. unfold build_dim_product.
  rewrite length_assign_product_id.
  change (drop_duplicates ?l) with (drop_seen [] l).
  etrans; [apply length_drop_seen|]. unfold project_key. by rewrite length_map.
Qed.

(** X2: on a batch without invalid rows the transform does no I/O at all:
    the guard of line 60 skips the write, so no operation is attempted,
    files and store stay as they were (a quarantine file of an earlier run
    is neither emptied nor removed), and there is one fact row per input
    row. *)
Theorem transform_all_valid_no_io (df : DataFrame) (w : World) :
  Forall (λ r, ¬ invalid r) df →
  ∃ w', transform_and_model_data df w = (Return (model_data df), w') ∧
        files w' = files w ∧ store w' = store w ∧ trace w' = trace w ∧
        length (model_data df).2 = length df.
Proof.
  intros Hv. destruct (all_valid_partition df Hv) as [Hq Hc].
  eexists. split; [by apply transform_run_clean|]. split_and!; [done..|].
  destruct (length_model_data df) as [Hl _]. by rewrite Hl, Hc.
Qed.

Lemma transform_all_valid_no_io_witness :
  ∃ w', transform_and_model_data all_valid_batch used_world =
          (Return (model_data all_valid_batch), w') ∧
        files w' !! QUARANTINE_FILE =
          Some [mkRaw 9 None "Pen" "Office" (Some 2) 1 "2023-09-30"] ∧
        trace w' = [].
Proof.
  destruct (transform_all_valid_no_io all_valid_batch used_world)
    as (w' & Hrun & Hf & _ & Ht & _).
  - apply (bool_decide_unpack _). by vm_compute.
  - exists w'. split_and!; [exact Hrun| |exact Ht]. rewrite Hf. reflexivity.
Defined.

(** X3: in every world and for every batch, the transform never touches
    the store, changes no file other than the quarantine file (the source
    file in particular), and attempts no operation besides at most one
    write of the quarantine file. *)
Theorem transform_frame (df : DataFrame) (w : World) :
  store (transform_and_model_data df w).2 = store w ∧
  (∀ path, path ≠ QUARANTINE_FILE →
           files (transform_and_model_data df w).2 !! path = files w !! path) ∧
  (trace (transform_and_model_data df w).2 = trace w ∨
   trace (transform_and_model_data df w).2 =
     trace w ++ [WriteCsv QUARANTINE_FILE]) ∧
  (trace (transform_and_model_data df w).2 = trace w ↔ df_quarantine df = []).
Proof.
  assert (∀ l : list IOOp, ∀ a, l ++ [a] ≠ l) as Hsnoc.
  { intros l a Heq. apply (f_equal length) in Heq. rewrite length_app in Heq.
    cbn in Heq. lia. }
  destruct (decide (df_quarantine df = [])) as [Hq|Hq].
  - rewrite transform_run_clean by done. cbn. split_and!; try done; by left.
  - destruct (fails w (WriteCsv QUARANTINE_FILE)) eqn:Hf.
    + rewrite transform_run_raise by done. cbn. split_and!; try done.
      * by right.
      * split; [intros Heq; by apply Hsnoc in Heq|done].
    + rewrite transform_run_quarantine by done. cbn. split_and!; try done.
      * intros path Hp. by rewrite lookup_insert_ne.
      * by right.
      * split; [intros Heq; by apply Hsnoc in Heq|done].
Qed.

(** X14: when the transform returns, the last message it logged carries
    the number of fact rows, that number and the number of quarantined rows
    add up to the number of input rows, and the dimension has at most as
    many rows as the fact table. *)
Theorem transform_log_counts (df : DataFrame) (w w' : World) r :
  transform_and_model_data df w = (Return r, w') →
  last (logs w') = Some (INFO, Transformed (length r.2)) ∧
  (length r.2 + length (df_quarantine df) = length df)%nat ∧
  (length r.1 ≤ length r.2)%nat.
Proof.
  intros Hrun.
  assert (r = model_data df ∧
          last (logs w') = Some (INFO, Transformed (length (model_data df).2)))
    as [-> Hlast].
  { destruct (decide (df_quarantine df = [])) as [Hq|Hq].
    - rewrite transform_run_clean in Hrun by done. injection Hrun as <- <-.
      split; [done|]. cbn. by rewrite last_app.
    - destruct (fails w (WriteCsv QUARANTINE_FILE)) eqn:Hf.
      + by rewrite transform_run_raise in Hrun.
      + rewrite transform_run_quarantine in Hrun by done.
        injection Hrun as <- <-. split; [done|]. cbn.
        by rewrite last_app. }
  destruct (length_model_data df) as [Hf Hd]. split_and!; [done| |done].
  rewrite Hf. apply Interleave_length.
  rewrite df_clean_filter, df_quarantine_filter. apply filter_Interleave.
Qed.

Lemma transform_log_counts_witness :
  last (logs (transform_and_model_data raw_data fresh_world).2) =
    Some (INFO, Transformed 4) ∧
  (4 + length (df_quarantine raw_data) = length raw_data)%nat.
Proof.
  destruct (transform_log_counts raw_data fresh_world
              (transform_and_model_data raw_data fresh_world).2
              (model_data raw_data)) as (Hlast & Hsum & _).
  - reflexivity.
  - split; [exact Hlast|exact Hsum].
Defined.

(** ** Loading *)

(** X4: in every world, [load_data] changes no file and no table other
    than [dim_product] and [fact_sales]; when the database cannot be opened
    it attempts no write and leaves the store as it was; and because the
    dimension is written first, [fact_sales] is never touched unless
    [dim_product] holds the new dimension rows. *)
Theorem load_data_frame dim fact (w : World) :
  files (load_data dim fact w).2 = files w ∧
  (∀ t, t ≠ "dim_product" → t ≠ "fact_sales" →
        store (load_data dim fact w).2 !! t = store w !! t) ∧
  (fails w (Connect DB_NAME) = true →
   store (load_data dim fact w).2 = store w ∧
   trace (load_data dim fact w).2 = trace w ++ [Connect DB_NAME]) ∧
  (store (load_data dim fact w).2 !! "fact_sales" ≠ store w !! "fact_sales" →
   store (load_data dim fact w).2 !! "dim_product" = Some (DimTable dim)).
Proof.
  destruct (fails w (Connect DB_NAME)) eqn:Hc.
  { rewrite load_run_connect_fails by done. cbn. split_and!; done. }
  destruct (fails w (ToSql "dim_product")) eqn:Hd.
  { rewrite load_run_dim_fails by done.
    destruct (lookup_interrupted (fails w) (store w) "dim_product" (DimTable dim))
      as [Hother _].
    cbn. split_and!; try done.
    - intros t Ht _. by apply Hother.
    - intros Hne. destruct Hne. by apply Hother. }
  destruct (fails w (ToSql "fact_sales")) eqn:Hf.
  - rewrite load_run_fact_fails by done.
    destruct (lookup_interrupted (fails w)
                (<["dim_product" := DimTable dim]> (store w))
                "fact_sales" (FactTable fact)) as [Hother _].
    cbn. split_and!; try done.
    + intros t Ht1 Ht2. rewrite Hother by done. by rewrite lookup_insert_ne.
    + intros _. rewrite Hother by done. apply lookup_insert_eq.
  - rewrite load_run_ok by done. cbn. split_and!; try done.
    + intros t Ht1 Ht2. by rewrite !lookup_insert_ne.
    + intros _. rewrite lookup_insert_ne by done. apply lookup_insert_eq.
Qed.

Lemma load_data_frame_witness :
  store (load_data foreign_dim [] database_down).2 = ∅ ∧
  trace (load_data foreign_dim [] database_down).2 = [Connect DB_NAME].
Proof.
  destruct (load_data_frame foreign_dim [] database_down) as (_ & _ & Hc & _).
  destruct Hc as [Hs Ht]; [reflexivity|]. split; [exact Hs|exact Ht].
Defined.

Lemma load_store_ok dim fact (w : World) :
  storage_ok w →
  store (load_data dim fact w).2 =
    <["fact_sales" := FactTable fact]>
      (<["dim_product" := DimTable dim]> (store w)) ∧
  fails (load_data dim fact w).2 = fails w ∧
  files (load_data dim fact w).2 = files w.
Proof. intros (Hc & Hd & Hf). by rewrite load_run_ok. Qed.

Lemma insert_tables_twice (s : gmap string Table) d1 f1 d2 f2 :
  <["fact_sales" := f2]> (<["dim_product" := d2]>
    (<["fact_sales" := f1]> (<["dim_product" := d1]> s))) =
  <["fact_sales" := f2]> (<["dim_product" := d2]> s).
Proof.
  rewrite (insert_insert_ne _ "dim_product" "fact_sales") by done.
  by rewrite insert_insert_eq, insert_insert_eq.
Qed.

(** X5: when the storage works, what [load_data] wrote can be read back
    under the two table names, whatever they held before, and a later load
    replaces an earlier one completely: the store after loading twice is the
    store after the second load alone (so loading the same tables again
    changes nothing). *)
Theorem load_data_overwrites d1 f1 d2 f2 (w : World) :
  storage_ok w →
  store (load_data d2 f2 w).2 !! "dim_product" = Some (DimTable d2) ∧
  store (load_data d2 f2 w).2 !! "fact_sales" = Some (FactTable f2) ∧
  store (load_data d2 f2 (load_data d1 f1 w).2).2 = store (load_data d2 f2 w).2 ∧
  store (load_data d2 f2 (load_data d2 f2 w).2).2 = store (load_data d2 f2 w).2.
Proof.
  intros Hok.
  assert (∀ d f, storage_ok (load_data d f w).2) as Hok'.
  { intros d f. destruct (load_store_ok d f w Hok) as (_ & Hf & _).
    unfold storage_ok. by rewrite Hf. }
  destruct (load_store_ok d2 f2 w Hok) as (Hs & _ & _).
  split_and!.
  - rewrite Hs, lookup_insert_ne by done. apply lookup_insert_eq.
  - rewrite Hs. apply lookup_insert_eq.
  - destruct (load_store_ok d2 f2 _ (Hok' d1 f1)) as (-> & _ & _).
    destruct (load_store_ok d1 f1 w Hok) as (-> & _ & _).
    rewrite Hs. apply insert_tables_twice.
  - destruct (load_store_ok d2 f2 _ (Hok' d2 f2)) as (-> & _ & _).
    rewrite Hs. apply insert_tables_twice.
Qed.

Lemma load_data_overwrites_witness :
  store (load_data foreign_dim [] used_world).2 !! "dim_product" =
    Some (DimTable foreign_dim) ∧
  store (load_data foreign_dim [] used_world).2 !! "audit" = Some (FactTable []).
Proof.
  destruct (load_data_overwrites [] [] foreign_dim [] used_world)
    as (Hd & _ & _ & _).
  - by split_and!.
  - split; [exact Hd|reflexivity].
Defined.

(** ** Whole runs *)

(** The files a successful transform of [df] leaves. *)
Lemma run_pipeline_ok_run (w : World) (df : DataFrame) :
  files w !! RAW_FILE = Some df → pipeline_ok w →
  ∃ w', run_pipeline w = (Return tt, w') ∧
        store w' =
          <["fact_sales" := FactTable (model_data df).2]>
            (<["dim_product" := DimTable (model_data df).1]> (store w)) ∧
        files w' =
          (if decide (df_quarantine df = []) then files w
           else <[QUARANTINE_FILE := df_quarantine df]> (files w)) ∧
        fails w' = fails w ∧
        last (logs w') = Some (INFO, Completed).
Proof.
  intros Hfile (Hr & Hq & Hc & Hd & Hf).
  unfold run_pipeline, bind at 1. rewrite (extract_run_ok w df Hr Hfile).
  unfold bind at 1. destruct (decide (df_quarantine df = [])) as [Hqe|Hqe].
  - rewrite transform_run_clean by done. cbn [fst snd].
    rewrite load_run_ok by done. eexists. split; [done|]. cbn.
    split_and!; try done. by rewrite last_app.
  - rewrite transform_run_quarantine by done. cbn [fst snd].
    rewrite load_run_ok by done. eexists. split; [done|]. cbn.
    split_and!; try done. by rewrite last_app.
Qed.

(** X6: when the source file holds [df] and nothing fails, lines 107-111
    return normally, the store holds under the two table names the
    dimension and fact batches of [df] (other tables untouched), the
    quarantine file holds the invalid rows of [df] when there are any and is
    left as it was otherwise, and the last message logged is the completion
    message. *)
Theorem run_pipeline_success (w : World) (df : DataFrame) :
  files w !! RAW_FILE = Some df → pipeline_ok w →
  ∃ w', run_pipeline w = (Return tt, w') ∧
        store w' =
          <["fact_sales" := FactTable (model_data df).2]>
            (<["dim_product" := DimTable (model_data df).1]> (store w)) ∧
        files w' =
          (if decide (df_quarantine df = []) then files w
           else <[QUARANTINE_FILE := df_quarantine df]> (files w)) ∧
        last (logs w') = Some (INFO, Completed).
Proof.
  intros Hfile Hok.
  destruct (run_pipeline_ok_run w df Hfile Hok) as (w' & ? & ? & ? & _ & ?).
  by exists w'.
Qed.

Lemma run_pipeline_success_witness :
  ∃ w', run_pipeline used_world = (Return tt, w') ∧
        store w' !! "dim_product" =
          Some (DimTable [ mkDim "Desk" "Furniture" (Some 150) 1;
                           mkDim "Lamp" "Furniture" (Some 40) 2 ]) ∧
        store w' !! "audit" = Some (FactTable []) ∧
        files w' !! QUARANTINE_FILE =
          Some [mkRaw 9 None "Pen" "Office" (Some 2) 1 "2023-09-30"].
Proof.
  destruct (run_pipeline_success used_world all_valid_batch)
    as (w' & Hrun & Hs & Hf & _).
  - reflexivity.
  - by split_and!.
  - exists w'. split; [exact Hrun|]. rewrite Hs, Hf. by split_and!.
Defined.

(** X7: a second run over the same source file changes nothing: it
    returns normally and leaves the store and the files exactly as the
    first run left them. *)
Theorem run_pipeline_idempotent (w : World) (df : DataFrame) :
  files w !! RAW_FILE = Some df → pipeline_ok w →
  (run_pipeline (run_pipeline w).2).1 = Return tt ∧
  store (run_pipeline (run_pipeline w).2).2 = store (run_pipeline w).2 ∧
  files (run_pipeline (run_pipeline w).2).2 = files (run_pipeline w).2.
Proof.
  intros Hfile Hok.
  destruct (run_pipeline_ok_run w df Hfile Hok) as (w1 & Hrun1 & Hs1 & Hf1 & Hfl1 & _).
  rewrite Hrun1. cbn [snd].
  assert (files w1 !! RAW_FILE = Some df) as Hfile1.
  { rewrite Hf1. destruct (decide (df_quarantine df = [])); [done|].
    by rewrite lookup_insert_ne. }
  assert (pipeline_ok w1) as Hok1.
  { unfold pipeline_ok, storage_ok. by rewrite Hfl1. }
  destruct (run_pipeline_ok_run w1 df Hfile1 Hok1) as (w2 & Hrun2 & Hs2 & Hf2 & _).
  rewrite Hrun2. cbn [fst snd]. split_and!.
  - done.
  - rewrite Hs2, Hs1. apply insert_tables_twice.
  - rewrite Hf2. destruct (decide (df_quarantine df = [])); [done|].
    rewrite Hf1. destruct (decide (df_quarantine df = [])); [done|].
    by rewrite insert_insert_eq.
Qed.

Lemma run_pipeline_idempotent_witness :
  store (run_pipeline (run_pipeline dummy_world).2).2 =
    store (run_pipeline dummy_world).2 ∧
  files (run_pipeline (run_pipeline dummy_world).2).2 =
    files (run_pipeline dummy_world).2.
Proof.
  destruct (run_pipeline_idempotent dummy_world raw_data) as (_ & Hs & Hf).
  - reflexivity.
  - by split_and!.
  - split; [exact Hs|exact Hf].
Defined.

(** X8: the main block never processes what the source file held: it
    first overwrites the source file with the dummy data, so when nothing
    fails it returns normally with the dummy data in the source file, their
    two invalid rows in the quarantine file and their dimension and fact
    batches in the store, whatever files and tables the world had. *)
Theorem main_overwrites_source (w : World) :
  fails w (WriteCsv RAW_FILE) = false → pipeline_ok w →
  ∃ w', main w = (Return tt, w') ∧
        files w' !! RAW_FILE = Some raw_data ∧
        files w' !! QUARANTINE_FILE = Some (df_quarantine raw_data) ∧
        store w' !! "dim_product" = Some (DimTable (model_data raw_data).1) ∧
        store w' !! "fact_sales" = Some (FactTable (model_data raw_data).2) ∧
        (∀ path, path ≠ RAW_FILE → path ≠ QUARANTINE_FILE →
                 files w' !! path = files w !! path).
Proof.
  intros Hw Hok. unfold main, bind at 1. rewrite (generate_run_ok w Hw).
  set (w0 := mkWorld _ _ _ _ _).
  destruct (run_pipeline_ok_run w0 raw_data) as (w' & Hrun & Hs & Hf & _).
  { apply lookup_insert_eq. }
  { exact Hok. }
  exists w'. split; [done|]. rewrite Hs, Hf.
  destruct (decide (df_quarantine raw_data = [])) as [Hq|_]; [by vm_compute in Hq|].
  subst w0. cbn [files store]. split_and!.
  - rewrite lookup_insert_ne by done. apply lookup_insert_eq.
  - apply lookup_insert_eq.
  - rewrite lookup_insert_ne by done. apply lookup_insert_eq.
  - apply lookup_insert_eq.
  - intros path H1 H2. by rewrite !lookup_insert_ne.
Qed.

Lemma main_overwrites_source_witness :
  ∃ w', main used_world = (Return tt, w') ∧
        files w' !! RAW_FILE = Some raw_data ∧
        store w' !! "dim_product" =
          Some (DimTable [ mkDim "Laptop" "Electronics" (Some 1200) 1;
                           mkDim "Mouse" "Accessories" (Some 25) 2;
                           mkDim "Monitor" "Electronics" (Some 300) 3 ]).
Proof.
  destruct (main_overwrites_source used_world)
    as (w' & Hrun & Hraw & _ & Hdim & _).
  - reflexivity.
  - by split_and!.
  - exists w'. split_and!; [exact Hrun|exact Hraw|exact Hdim].
Defined.



(** ** The partition of batches put together *)

(** X18: the partition works row by row, so it can be done in pieces: the
    valid (invalid) rows of two batches put end to end are the valid
    (invalid) rows of the first followed by those of the second; and
    partitioning the valid output again quarantines nothing and keeps every
    row. *)
Theorem partition_compose (df1 df2 : DataFrame) :
  df_clean (df1 ++ df2) = df_clean df1 ++ df_clean df2 ∧
  df_quarantine (df1 ++ df2) = df_quarantine df1 ++ df_quarantine df2 ∧
  df_quarantine (df_clean df1) = [] ∧
  df_clean (df_clean df1) = df_clean df1 ∧
  df_clean (df_quarantine df1) = [].
Proof.
  split_and!.
  - rewrite !df_clean_filter. apply filter_app.
  - rewrite !df_quarantine_filter. apply filter_app.
  - apply all_valid_partition, Forall_forall. intros r Hr.
    rewrite df_clean_filter, list_elem_of_filter in Hr. tauto.
  - apply all_valid_partition, Forall_forall. intros r Hr.
    rewrite df_clean_filter, list_elem_of_filter in Hr. tauto.
  - rewrite df_clean_filter. apply filter_none. intros r Hr.
    rewrite df_quarantine_filter, list_elem_of_filter in Hr. tauto.
Qed.
